(** * TrainingPortal janitor: a shallow embedding of
      [src/trainingportal_janitor/main.py] and the properties of its
      sweep-and-expire loop.

    Layout of the development:
    - [datetime]: naive timestamps and their ordering;
    - [Strptime]: the part of CPython's [datetime.strptime] that the three
      [DATETIME_PATTERNS] exercise;
    - the effect monad [M] (state, trace of external calls, exceptions);
    - the functions of [main.py], one definition per source function;
    - the theorems. *)

From Stdlib Require Import ZArith String Ascii List Bool Lia.
From stdpp Require Import base tactics option list strings gmap pretty.

Local Open Scope string_scope.
Local Open Scope list_scope.
Local Open Scope Z_scope.

(* ===================================================================== *)
(** ** Naive datetimes *)
(* ===================================================================== *)

(** A [datetime.datetime] without tzinfo: the seven integer fields. *)
Record datetime := mk_datetime {
  year : Z; month : Z; day : Z;
  hour : Z; minute : Z; second : Z; microsecond : Z
}.

(** Python compares two naive datetimes field by field, as tuples. *)
Definition dt_fields (d : datetime) : list Z :=
  [year d; month d; day d; hour d; minute d; second d; microsecond d].

Fixpoint lex_compare (a b : list Z) : comparison :=
  match a, b with
  | [], [] => Eq
  | [], _ :: _ => Lt
  | _ :: _, [] => Gt
  | x :: a', y :: b' =>
      match Z.compare x y with
      | Eq => lex_compare a' b'
      | c => c
      end
  end.

Definition dt_cmp (a b : datetime) : comparison :=
  lex_compare (dt_fields a) (dt_fields b).

(** [a > b], [a < b], [a <= b] and [a == b] on datetimes. *)
Definition dt_gtb (a b : datetime) : bool :=
  match dt_cmp a b with Gt => true | _ => false end.
Definition dt_ltb (a b : datetime) : bool :=
  match dt_cmp a b with Lt => true | _ => false end.
Definition dt_leb (a b : datetime) : bool :=
  match dt_cmp a b with Gt => false | _ => true end.
Definition dt_eqb (a b : datetime) : bool :=
  match dt_cmp a b with Eq => true | _ => false end.

(* ===================================================================== *)
(** ** [datetime.strptime] on the directives of [DATETIME_PATTERNS] *)
(* ===================================================================== *)

(** CPython's [_strptime] turns a format into a regular expression, one
    named group per directive, compiled with [re.IGNORECASE]; it takes the
    first match from the start of the input (alternatives in the order they
    are written, with backtracking), rejects the input when the match does
    not reach its end, and builds the datetime, which rejects an impossible
    date.  Every rejection is a [ValueError], rendered here as [None].
    Only [%Y %m %d %H %M %S], [%%] and literal non-blank characters are
    covered: that is all the three patterns use.  A [string] is read as a
    text of code points below 256: among those the decimal digits that
    [\d] matches are the ten ASCII digits, and the letters that match a
    literal [T] or [Z] without regard to case are the two ASCII cases, so
    the classes below are exact on such texts.  A text with a code point
    from 256 on (a decimal digit of another script, which [\d] and [int]
    accept as well) is outside the model. *)
Module Strptime.

Inductive directive := dY | dm | dd | dH | dM | dS.

Inductive token :=
| Lit (c : ascii)
| Dir (d : directive).

Definition directive_of (c : ascii) : option directive :=
  if Ascii.eqb c "Y" then Some dY
  else if Ascii.eqb c "m" then Some dm
  else if Ascii.eqb c "d" then Some dd
  else if Ascii.eqb c "H" then Some dH
  else if Ascii.eqb c "M" then Some dM
  else if Ascii.eqb c "S" then Some dS
  else None.

Definition is_blank (c : ascii) : bool :=
  let n := nat_of_ascii c in
  orb (Nat.eqb n 32) (andb (Nat.leb 9 n) (Nat.leb n 13)).

Fixpoint tokenize (fmt : string) : option (list token) :=
  match fmt with
  | EmptyString => Some []
  | String c rest =>
      if Ascii.eqb c "%" then
        match rest with
        | EmptyString => None
        | String k rest' =>
            if Ascii.eqb k "%" then
              option_map (cons (Lit "%")) (tokenize rest')
            else
              match directive_of k with
              | Some d => option_map (cons (Dir d)) (tokenize rest')
              | None => None
              end
        end
      else if is_blank c then None
      else option_map (cons (Lit c)) (tokenize rest)
  end.

(** Character classes of the directive regexes. *)
Definition in_range (lo hi : ascii) (c : ascii) : bool :=
  andb (Nat.leb (nat_of_ascii lo) (nat_of_ascii c))
       (Nat.leb (nat_of_ascii c) (nat_of_ascii hi)).
Definition digit : ascii -> bool := in_range "0" "9".
Definition chr (x : ascii) : ascii -> bool := Ascii.eqb x.

(** One alternative of a group: a fixed sequence of character classes. *)
Definition alternative := list (ascii -> bool).

(** The groups, alternatives in the order of [_strptime.TimeRE]. *)
Definition alternatives (d : directive) : list alternative :=
  match d with
  | dY => [[digit; digit; digit; digit]]
  | dm => [[chr "1"; in_range "0" "2"]; [chr "0"; in_range "1" "9"];
           [in_range "1" "9"]]
  | dd => [[chr "3"; in_range "0" "1"]; [in_range "1" "2"; digit];
           [chr "0"; in_range "1" "9"]; [in_range "1" "9"];
           [chr " "; in_range "1" "9"]]
  | dH => [[chr "2"; in_range "0" "3"]; [in_range "0" "1"; digit]; [digit]]
  | dM => [[in_range "0" "5"; digit]; [digit]]
  | dS => [[chr "6"; in_range "0" "1"]; [in_range "0" "5"; digit]; [digit]]
  end.

(** Match one alternative at the head of [s]: the text matched and the
    rest of the input. *)
Fixpoint match_alt (alt : alternative) (s : string) : option (string * string) :=
  match alt with
  | [] => Some (EmptyString, s)
  | cls :: alt' =>
      match s with
      | EmptyString => None
      | String c s' =>
          if cls c then
            match match_alt alt' s' with
            | Some (txt, r) => Some (String c txt, r)
            | None => None
            end
          else None
      end
  end.

Fixpoint first_some {A B : Type} (f : A -> option B) (l : list A) : option B :=
  match l with
  | [] => None
  | x :: l' => match f x with Some y => Some y | None => first_some f l' end
  end.

(** Letters of a literal match in either case. *)
Definition lower (c : ascii) : ascii :=
  if in_range "A" "Z" c then ascii_of_nat (nat_of_ascii c + 32) else c.
Definition eqb_nocase (a b : ascii) : bool := Ascii.eqb (lower a) (lower b).

(** The first match of the whole token sequence, by backtracking over the
    alternatives of each group: the groups' texts and the unmatched rest. *)
Fixpoint match_tokens (ts : list token) (s : string)
  : option (list (directive * string) * string) :=
  match ts with
  | [] => Some ([], s)
  | Lit c :: ts' =>
      match s with
      | EmptyString => None
      | String x s' => if eqb_nocase c x then match_tokens ts' s' else None
      end
  | Dir d :: ts' =>
      first_some
        (fun alt =>
           match match_alt alt s with
           | Some (txt, s') =>
               match match_tokens ts' s' with
               | Some (fs, r) => Some ((d, txt) :: fs, r)
               | None => None
               end
           | None => None
           end)
        (alternatives d)
  end.

(** [int(text)] for the texts the groups can match: decimal digits,
    possibly after a blank. *)
Definition digit_val (c : ascii) : Z :=
  Z.of_nat (nat_of_ascii c) - 48.

Fixpoint int_acc (acc : Z) (s : string) : Z :=
  match s with
  | EmptyString => acc
  | String c s' =>
      if digit c then int_acc (10 * acc + digit_val c) s' else int_acc acc s'
  end.
Definition int (s : string) : Z := int_acc 0 s.

Definition directive_eqb (a b : directive) : bool :=
  match a, b with
  | dY, dY | dm, dm | dd, dd | dH, dH | dM, dM | dS, dS => true
  | _, _ => false
  end.

(** The value of group [d], or the default [_strptime] starts from. *)
Fixpoint field (d : directive) (dflt : Z) (fs : list (directive * string)) : Z :=
  match fs with
  | [] => dflt
  | (d', txt) :: fs' =>
      if directive_eqb d d' then int txt else field d dflt fs'
  end.

Definition is_leap (y : Z) : bool :=
  andb (y mod 4 =? 0) (orb (negb (y mod 100 =? 0)) (y mod 400 =? 0)).

Definition days_in_month (y m : Z) : Z :=
  if m =? 2 then (if is_leap y then 29 else 28)
  else if orb (orb (m =? 4) (m =? 6)) (orb (m =? 9) (m =? 11)) then 30
  else 31.

(** The checks of the [datetime] constructor. *)
Definition valid_datetime (d : datetime) : bool :=
  andb (andb (andb (1 <=? year d) (year d <=? 9999))
             (andb (1 <=? month d) (month d <=? 12)))
       (andb (andb (andb (1 <=? day d) (day d <=? days_in_month (year d) (month d)))
                   (andb (0 <=? hour d) (hour d <=? 23)))
             (andb (andb (0 <=? minute d) (minute d <=? 59))
                   (andb (andb (0 <=? second d) (second d <=? 59))
                         (andb (0 <=? microsecond d) (microsecond d <=? 999999))))).

Definition build (fs : list (directive * string)) : option datetime :=
  let d := mk_datetime (field dY 1900 fs) (field dm 1 fs) (field dd 1 fs)
                       (field dH 0 fs) (field dM 0 fs) (field dS 0 fs) 0 in
  if valid_datetime d then Some d else None.

Definition strptime (data_string format : string) : option datetime :=
  match tokenize format with
  | None => None
  | Some ts =>
      match match_tokens ts data_string with
      | Some (fs, EmptyString) => build fs
      | Some (_, String _ _) => None
      | None => None
      end
  end.

End Strptime.

(* ===================================================================== *)
(** ** Python values the program handles *)
(* ===================================================================== *)

(** Exceptions, by the two classes the [except] clauses tell apart:
    [ValueError], and every other subclass of [Exception]. *)
Inductive exn :=
| ValueError (msg : string)
| OtherException (msg : string).

Definition str_exn (e : exn) : string :=
  match e with ValueError m => m | OtherException m => m end.

Definition is_ValueError (e : exn) : bool :=
  match e with ValueError _ => true | OtherException _ => false end.

Definition is_Exception (e : exn) : bool := true.

(** The [TypeError] of calling a string, and the two errors of
    [time.sleep]: a [ValueError] and an [OverflowError]. *)
Definition NOT_CALLABLE : exn := OtherException "'str' object is not callable".
Definition NEGATIVE_SLEEP : exn := ValueError "sleep length must be non-negative".
Definition SLEEP_OVERFLOW : exn :=
  OtherException "timestamp too large to convert to C _PyTime_t".

(** A TrainingPortal as the dynamic client returns it: [metadata.name],
    [metadata.annotations] (absent on an object without annotations) and the
    top-level attribute [name] that one log line reads. *)
Record Metadata := {
  metadata_name : string;
  metadata_annotations : option (gmap string string)
}.

Record Resource := {
  metadata : Metadata;
  name : option string
}.

(** Truth value of [metadata.annotations] and of a string or [None].  The
    dynamic client hands the annotations over as an attribute object, which
    is true whenever it is there, also when it holds nothing; without
    annotations the attribute is [None]. *)
Definition truthy_map (a : option (gmap string string)) : bool :=
  match a with
  | Some _ => true
  | None => false
  end.

Definition truthy (s : option string) : bool :=
  match s with
  | Some (String _ _) => true
  | Some EmptyString => false
  | None => false
  end.

(** [str(x)] for a string attribute that may be [None]. *)
Definition str_opt (s : option string) : string :=
  match s with Some x => x | None => "None" end.

Definition str_bool (b : bool) : string := if b then "True" else "False".

(** The double quote character. *)
Definition dquote : ascii := ascii_of_nat 34.

(** A [dict] with string keys and integer values, in insertion order. *)
Definition dict := list (string * Z).

Fixpoint dict_get (k : string) (d : dict) : option Z :=
  match d with
  | [] => None
  | (k', v) :: d' => if String.eqb k k' then Some v else dict_get k d'
  end.

(** [d[k] = v] *)
Fixpoint dict_set (k : string) (v : Z) (d : dict) : dict :=
  match d with
  | [] => [(k, v)]
  | (k', v') :: d' =>
      if String.eqb k k' then (k, v) :: d' else (k', v') :: dict_set k v d'
  end.

(** [Counter.__getitem__]: a missing key counts zero. *)
Definition count (k : string) (c : dict) : Z := default 0 (dict_get k c).

(** [Counter.update(d)]: add the counts of [d], key by key. *)
Definition Counter_update (c : dict) (d : dict) : dict :=
  fold_left (fun acc kv => dict_set (fst kv) (snd kv + count (fst kv) acc) acc) d c.

(** [", ".join(f"{k}={v}" for k, v in d.items())] *)
Definition join_items (d : dict) : string :=
  String.concat ", " (map (fun kv => fst kv +:+ "=" +:+ pretty (snd kv)) d).

(* ===================================================================== *)
(** ** Constants of [main.py] *)
(* ===================================================================== *)

Definition LOGGER : string := "trainingportal_janitor".
Definition ROOT_LOGGER : string := "root".
Definition EXPIRY_ANNOTATION : string := "janitor/expires".
Definition DATETIME_PATTERNS : list string :=
  ["%Y-%m-%dT%H:%M:%SZ"; "%Y-%m-%dT%H:%M"; "%Y-%m-%d"].

Definition WITH_EXPIRY : string := "trainingportal-with-expiry".
Definition DELETED : string := "trainingportal-deleted".

(** [argparse]'s namespace. *)
Record Args := {
  dry_run : bool;
  verbose : bool;
  once : bool;
  interval : Z
}.

(* ===================================================================== *)
(** ** The world outside the program *)
(* ===================================================================== *)

Inductive Level := DEBUG | INFO | ERROR.

(** What the program does to its surroundings, in order: logging calls and
    calls of the kubernetes client, the clock aside. *)
Inductive Event {C : Type} :=
| Log (logger : string) (lvl : Level) (msg : string)
| BasicConfig (lvl : Level)
| LoadInclusterConfig
| LoadKubeConfig
| NewApiClient (configuration : option C)
| ResourcesGet (api_version kind : string)
| ApiGet
| ApiDelete (name : string)
| Sleep (seconds : Z).
Arguments Event : clear implicits.

(** Modelled from the spec: [shutdown.GracefulShutdown] is not among the
    sources.  A termination signal sets a flag that the driver observes
    after each run ([shutdown_now]; [shutdown_now_at i] is its value at the
    check that follows run [i]) and that interrupts the sleep between two
    runs, ending the process ([signal_in_sleep i]: a signal arrives during
    the sleep after run [i]). *)
Record GracefulShutdown := {
  shutdown_now_at : nat -> bool;
  signal_in_sleep : nat -> bool
}.

(** The libraries and the environment the program runs against.  A call of
    the kubernetes client reads and changes the cluster and returns or
    raises.  [utcnow_at k] is what the [k]-th reading of the clock returns. *)
Record Platform := {
  Cluster : Type;
  ConfigObj : Type;
  Client : Type;
  Api : Type;
  utcnow_at : nat -> datetime;
  load_incluster_config : Cluster -> (exn + ConfigObj) * Cluster;
  load_kube_config : Cluster -> (exn + ConfigObj) * Cluster;
  DynamicClient : option ConfigObj -> Cluster -> (exn + Client) * Cluster;
  resources_get : Client -> string -> string -> Cluster -> (exn + Api) * Cluster;
  api_get : Api -> Cluster -> (exn + list Resource) * Cluster;
  api_delete : Api -> string -> Cluster -> (exn + unit) * Cluster;
  (** The [handler] that [main] creates. *)
  handler : GracefulShutdown
}.

Record World (P : Platform) := mk_World {
  cluster : Cluster P;
  ticks : nat;
  trace : list (Event (ConfigObj P))
}.
Arguments mk_World {P}.
Arguments cluster {P}.
Arguments ticks {P}.
Arguments trace {P}.

(* ===================================================================== *)
(** ** The effect monad: state, trace, exceptions *)
(* ===================================================================== *)

Definition M (P : Platform) (A : Type) : Type :=
  World P -> (exn + A) * World P.

#[global] Instance M_ret {P} : MRet (M P) := fun A x w => (inr x, w).

#[global] Instance M_bind {P} : MBind (M P) := fun A B f m w =>
  match m w with
  | (inr x, w') => f x w'
  | (inl e, w') => (inl e, w')
  end.

Definition raise {P A} (e : exn) : M P A := fun w => (inl e, w).

(** [try: body / except <class> as e: handler e] *)
Definition try_except {P A} (body : M P A) (catches : exn -> bool)
    (handler : exn -> M P A) : M P A := fun w =>
  match body w with
  | (inr x, w') => (inr x, w')
  | (inl e, w') => if catches e then handler e w' else (inl e, w')
  end.

Definition emit {P} (ev : Event (ConfigObj P)) : M P unit := fun w =>
  (inr tt, mk_World (cluster w) (ticks w) (trace w ++ [ev])).

Definition log {P} (logger : string) (lvl : Level) (msg : string) : M P unit :=
  emit (Log logger lvl msg).

(** A call of a library function on the cluster, recorded in the trace. *)
Definition call {P A} (ev : Event (ConfigObj P))
    (f : Cluster P -> (exn + A) * Cluster P) : M P A := fun w =>
  let '(r, c') := f (cluster w) in
  (r, mk_World c' (ticks w) (trace w ++ [ev])).

(** [time.sleep(secs)] for an integer: the seconds must fit, in
    nanoseconds, a signed 64-bit count, and must not be negative. *)
Definition SLEEP_MAX : Z := 9223372036.

Definition time_sleep_error (secs : Z) : option exn :=
  if orb (secs <? - SLEEP_MAX) (SLEEP_MAX <? secs) then Some SLEEP_OVERFLOW
  else if secs <? 0 then Some NEGATIVE_SLEEP
  else None.

Definition time_sleep {P} (secs : Z) : M P unit :=
  match time_sleep_error secs with
  | Some e => raise e
  | None => emit (Sleep secs)
  end.

(** [datetime.datetime.utcnow()] *)
Definition utcnow {P} : M P datetime := fun w =>
  (inr (utcnow_at P (ticks w)), mk_World (cluster w) (S (ticks w)) (trace w)).

(* ===================================================================== *)
(** ** The functions of [main.py] *)
(* ===================================================================== *)

Section Janitor.

(** [datetime.datetime.strptime], [None] for its [ValueError]. *)
Variable strptime : string -> string -> option datetime.
Variable P : Platform.

Implicit Types (w : World P) (tp : Resource) (api : Api P).

(** [get_in_cluster_with_fallback]: the loaded object is bound to a local
    and the function ends without a [return]. *)
Definition get_in_cluster_with_fallback : M P (option (ConfigObj P)) :=
  let config_obj : option (ConfigObj P) := None in
  log LOGGER DEBUG "Attempting to load in cluster config";;
  config_obj ←
    try_except
      (c ← call LoadInclusterConfig (load_incluster_config P); mret (Some c))
      is_Exception
      (fun e =>
         log LOGGER DEBUG ("Couldn't load in cluster config: " +:+ str_exn e);;
         log LOGGER DEBUG "Attempting to load local client config";;
         c ← call LoadKubeConfig (load_kube_config P); mret (Some c));
  mret None.

(** The loop of [parse_expiry] over the patterns: the first that
    [strptime] accepts returns.  ([replace(tzinfo=None)] leaves a naive
    datetime as it is.) *)
Fixpoint parse_with (patterns : list string) (expiry : string) : option datetime :=
  match patterns with
  | [] => None
  | pattern :: rest =>
      match strptime expiry pattern with
      | Some d => Some d
      | None => parse_with rest expiry
      end
  end.

Definition parse_expiry_message (expiry : string) : string :=
  "expiry value " +:+ String dquote expiry +:+ String dquote
    " does not match format 2022-01-01T13:23:54Z, 2022-01-01T13:23, or 2022-01-01".

Definition parse_expiry (expiry : string) : exn + datetime :=
  match parse_with DATETIME_PATTERNS expiry with
  | Some d => inr d
  | None => inl (ValueError (parse_expiry_message expiry))
  end.

Definition delete api (resource : Resource) (dry_run : bool) : M P unit :=
  let name := metadata_name (metadata resource) in
  if dry_run then
    log LOGGER INFO ("**DRY-RUN**: would delete TrainingPortal " +:+ name)
  else
    log LOGGER INFO ("Deleting TrainingPortal " +:+ name +:+ "..");;
    try_except
      (call (ApiDelete name) (api_delete P api name))
      is_Exception
      (fun e =>
         log LOGGER ERROR
           ("Could not delete TrainingPortal " +:+ name +:+ ": " +:+ str_exn e)).

(** [annotations.get(EXPIRY_ANNOTATION) if annotations else None].  On the
    attribute object of the dynamic client, [get] is looked up among the
    annotations first and is the [get] of the underlying [dict] only when no
    annotation has that name; an annotation named [get] is a string, and
    calling it raises [TypeError]. *)
Definition expiry_of tp : exn + option string :=
  let annotations := metadata_annotations (metadata tp) in
  if truthy_map annotations then
    match annotations with
    | Some m =>
        match m !! "get" with
        | Some _ => inl NOT_CALLABLE
        | None => inr (m !! EXPIRY_ANNOTATION)
        end
    | None => inr None
    end
  else inr None.

Definition expired_message tp (expiry reason : string) : string :=
  "TrainingPortal " +:+ metadata_name (metadata tp) +:+ " expired on " +:+ expiry
    +:+ " and will be deleted (" +:+ reason +:+ ")".

Definition pending_message tp (expiry : string) : string :=
  "TrainingPortal " +:+ metadata_name (metadata tp) +:+ " will expire on " +:+ expiry.

Definition invalid_message tp (e : exn) : string :=
  "Ignoring invalid expiry date on TrainingPortal " +:+ str_opt (name tp)
    +:+ ": " +:+ str_exn e.

Definition handle_trainingportal_expiry api tp (dry_run : bool) : M P dict :=
  let counter : dict := [] in
  match expiry_of tp with
  | inl e => raise e
  | inr expiry =>
      if truthy expiry then
        let expiry := default EmptyString expiry in
        let reason := "annotation " +:+ EXPIRY_ANNOTATION +:+ " is set" in
        match parse_expiry expiry with
        | inl e =>
            if is_ValueError e then
              log LOGGER INFO (invalid_message tp e);;
              mret counter
            else raise e
        | inr expiry_timestamp =>
            let counter := dict_set WITH_EXPIRY 1 counter in
            now ← utcnow;
            if dt_gtb now expiry_timestamp then
              log LOGGER INFO (expired_message tp expiry reason);;
              delete api tp dry_run;;
              let counter := dict_set DELETED 1 counter in
              mret counter
            else
              log ROOT_LOGGER DEBUG (pending_message tp expiry);;
              mret counter
        end
      else mret counter
  end.

(** The [for] loop of [sweep_objects]. *)
Fixpoint sweep_items api (items : list Resource) (counter : dict)
    (dry_run : bool) : M P dict :=
  match items with
  | [] => mret counter
  | trainingportal :: rest =>
      c ← handle_trainingportal_expiry api trainingportal dry_run;
      sweep_items api rest (Counter_update counter c) dry_run
  end.

(** [sweep_objects] updates the caller's [Counter] in place; here it
    returns the updated counter. *)
Definition sweep_objects (client : Client P) (tp_api_version : string)
    (counter : dict) (dry_run : bool) : M P dict :=
  trainingportal_api ←
    call (ResourcesGet tp_api_version "TrainingPortal")
         (resources_get P client tp_api_version "TrainingPortal");
  log LOGGER DEBUG ("Listing " +:+ tp_api_version +:+ " training portals");;
  trainingportals ← call ApiGet (api_get P trainingportal_api);
  sweep_items trainingportal_api trainingportals counter dry_run.

(** The [try] block of the loop of [main]. *)
Definition run_once (args : Args) : M P unit :=
  let counter : dict := [] in
  configuration ← get_in_cluster_with_fallback;
  client ← call (NewApiClient configuration) (DynamicClient P configuration);
  counter ← sweep_objects client "training.educates.dev/v1beta1" counter (dry_run args);
  let stats := join_items counter in
  log LOGGER INFO ("Clean up run completed: " +:+ stats).

(** [try: ... except Exception as e: logger.exception(...)] *)
Definition guarded_run (args : Args) : M P unit :=
  try_except (run_once args) is_Exception
    (fun e => log LOGGER ERROR ("Failed while running clean up loop: " +:+ str_exn e)).

(** How a call of [main] ends: it returns, an exception leaves it, the
    process exits from the signal handler during a sleep, or the loop is
    still running when the fuel of the model is spent. *)
Inductive Outcome :=
| Returned
| Raised (e : exn)
| Exited (code : Z)
| StillRunning.

(** The [while True] loop, [i] counting the runs already made.  The sleep
    is outside the [try]: what [time.sleep] raises leaves [main]. *)
Fixpoint main_loop (fuel : nat) (args : Args) (i : nat) w : Outcome * World P :=
  match fuel with
  | O => (StillRunning, w)
  | S fuel' =>
      match guarded_run args w with
      | (inl e, w1) => (Raised e, w1)
      | (inr _, w1) =>
          if orb (once args) (shutdown_now_at (handler P) i) then (Returned, w1)
          else
            match time_sleep (interval args) w1 with
            | (inl e, w2) => (Raised e, w2)
            | (inr _, w2) =>
                if signal_in_sleep (handler P) i then (Exited 0, w2)
                else main_loop fuel' args (S i) w2
            end
      end
  end.

Definition config_str (args : Args) : string :=
  String.concat ", "
    ["dry_run=" +:+ str_bool (dry_run args);
     "interval=" +:+ pretty (interval args);
     "once=" +:+ str_bool (once args);
     "verbose=" +:+ str_bool (verbose args)].

Definition startup (args : Args) : M P unit :=
  emit (BasicConfig (if verbose args then DEBUG else INFO));;
  log LOGGER INFO ("TrainingPortal Janitor started with " +:+ config_str args);;
  if dry_run args
  then log LOGGER INFO "**DRY-RUN**: no deletions will be performed!"
  else mret tt.

Definition main (fuel : nat) (args : Args) w : Outcome * World P :=
  match startup args w with
  | (inl e, w0) => (Raised e, w0)
  | (inr _, w0) => main_loop fuel args 0%nat w0
  end.

End Janitor.

(* ===================================================================== *)
(** ** The decision the handler takes, and what a trace shows *)
(* ===================================================================== *)

(** The four ways through [handle_trainingportal_expiry]. *)
Inductive ExpiryDecision :=
| NoExpiry
| Pending (at_ : datetime)
| Expired (at_ : datetime)
| Invalid (reason : string).

(** The branch the handler takes for [tp] when the clock reads [now]: the
    tests of the handler, in its order, without its effects; the exception
    when reading the annotation raises. *)
Definition evaluate (strptime : string -> string -> option datetime)
    (tp : Resource) (now : datetime) : exn + ExpiryDecision :=
  match expiry_of tp with
  | inl e => inl e
  | inr expiry =>
      inr (if truthy expiry then
             match parse_expiry strptime (default EmptyString expiry) with
             | inl e => Invalid (str_exn e)
             | inr expiry_timestamp =>
                 if dt_gtb now expiry_timestamp
                 then Expired expiry_timestamp
                 else Pending expiry_timestamp
             end
           else NoExpiry)
  end.

Definition is_expired (d : ExpiryDecision) : bool :=
  match d with Expired _ => true | _ => false end.

(** The handler reads the clock exactly when the annotation parses. *)
Definition reads_clock (d : ExpiryDecision) : bool :=
  match d with Pending _ | Expired _ => true | _ => false end.

(** The dictionary the handler returns on each branch. *)
Definition summary_of (d : ExpiryDecision) : dict :=
  match d with
  | NoExpiry | Invalid _ => []
  | Pending _ => [(WITH_EXPIRY, 1)]
  | Expired _ => [(WITH_EXPIRY, 1); (DELETED, 1)]
  end.

(** The decisions of one sweep over [items], the first reading of the clock
    being the [k]-th: those of the portals the loop reaches, that is, up to
    the first portal whose handling raises. *)
Fixpoint sweep_decisions (strptime : string -> string -> option datetime)
    (P : Platform) (items : list Resource) (k : nat)
  : list (Resource * ExpiryDecision) :=
  match items with
  | [] => []
  | tp :: rest =>
      match evaluate strptime tp (utcnow_at P k) with
      | inl _ => []
      | inr d =>
          (tp, d) :: sweep_decisions strptime P rest (if reads_clock d then S k else k)
      end
  end.

(** The portals the loop reaches and handles to the end, and the exception
    that ends the loop early, if any. *)
Fixpoint reached (items : list Resource) : list Resource :=
  match items with
  | [] => []
  | tp :: rest =>
      match expiry_of tp with
      | inl _ => []
      | inr _ => tp :: reached rest
      end
  end.

Fixpoint sweep_failure (items : list Resource) : option exn :=
  match items with
  | [] => None
  | tp :: rest =>
      match expiry_of tp with
      | inl e => Some e
      | inr _ => sweep_failure rest
      end
  end.

Definition expired_items (ds : list (Resource * ExpiryDecision)) : list Resource :=
  map fst (filter (fun td => is_expired (snd td) = true) ds).

(** The first thing [delete] does is to log one of two lines; no other
    line of the program starts like them. *)
Definition DRY_RUN_PREFIX : string := "**DRY-RUN**: would delete TrainingPortal ".
Definition DELETING_PREFIX : string := "Deleting TrainingPortal ".

Definition executor_entry {C} (dry_run : bool) (tp : Resource) : Event C :=
  if dry_run
  then Log LOGGER INFO (DRY_RUN_PREFIX +:+ metadata_name (metadata tp))
  else Log LOGGER INFO (DELETING_PREFIX +:+ metadata_name (metadata tp) +:+ "..").

Fixpoint starts_with (p s : string) : bool :=
  match p with
  | EmptyString => true
  | String a p' =>
      match s with
      | EmptyString => false
      | String b s' => andb (Ascii.eqb a b) (starts_with p' s')
      end
  end.

Definition is_executor_entry {C} (ev : Event C) : bool :=
  match ev with
  | Log _ INFO msg => orb (starts_with DRY_RUN_PREFIX msg) (starts_with DELETING_PREFIX msg)
  | _ => false
  end.

Definition is_api_delete {C} (ev : Event C) : bool :=
  match ev with ApiDelete _ => true | _ => false end.

Definition is_sleep {C} (ev : Event C) : bool :=
  match ev with Sleep _ => true | _ => false end.

(** A client built from a loaded configuration object. *)
Definition is_configured_client {C} (ev : Event C) : bool :=
  match ev with NewApiClient (Some _) => true | _ => false end.

(** The events of a trace that [f] selects. *)
Definition select {C} (f : Event C -> bool) (tr : list (Event C)) : list (Event C) :=
  filter (fun ev => f ev = true) tr.

(* ===================================================================== *)
(** ** Worlds, traces and results the statements speak of *)
(* ===================================================================== *)

Definition add_events {P} (w : World P) (evs : list (Event (ConfigObj P))) : World P :=
  mk_World (cluster w) (ticks w) (trace w ++ evs).

Definition tick {P} (w : World P) : World P :=
  mk_World (cluster w) (S (ticks w)) (trace w).

Definition could_not_delete (tp : Resource) (e : exn) : string :=
  "Could not delete TrainingPortal " +:+ metadata_name (metadata tp) +:+ ": " +:+ str_exn e.

(** The events of a real deletion whose client call returned [r]. *)
Definition deletion_events {C} (tp : Resource) (r : exn + unit) : list (Event C) :=
  [executor_entry false tp; ApiDelete (metadata_name (metadata tp))]
  ++ match r with
     | inl e => [Log LOGGER ERROR (could_not_delete tp e)]
     | inr _ => []
     end.

Definition api_delete_of {C} (tp : Resource) : Event C :=
  ApiDelete (metadata_name (metadata tp)).

Definition ATTEMPT_INCLUSTER {C} : Event C :=
  Log LOGGER DEBUG "Attempting to load in cluster config".
Definition ATTEMPT_LOCAL {C} : Event C :=
  Log LOGGER DEBUG "Attempting to load local client config".

(** The text of the expiry annotation, when there is one to read. *)
Definition expiry_text (tp : Resource) : string :=
  match expiry_of tp with
  | inr (Some v) => v
  | _ => EmptyString
  end.

(** The handler, branch by branch. *)
Definition handler_result (strptime : string -> string -> option datetime)
    (P : Platform) (api : Api P) (tp : Resource) (dry : bool) (w : World P)
  : (exn + dict) * World P :=
  let expiry := expiry_text tp in
  match evaluate strptime tp (utcnow_at P (ticks w)) with
  | inl e => (inl e, w)
  | inr NoExpiry => (inr [], w)
  | inr (Invalid reason) =>
      (inr [],
       add_events w
         [Log LOGGER INFO
            ("Ignoring invalid expiry date on TrainingPortal "
               +:+ str_opt (name tp) +:+ ": " +:+ reason)])
  | inr (Pending _) =>
      (inr [(WITH_EXPIRY, 1)],
       add_events (tick w) [Log ROOT_LOGGER DEBUG (pending_message tp expiry)])
  | inr (Expired _) =>
      (inr [(WITH_EXPIRY, 1); (DELETED, 1)],
       snd (delete P api tp dry
              (add_events (tick w)
                 [Log LOGGER INFO
                    (expired_message tp expiry
                       ("annotation " +:+ EXPIRY_ANNOTATION +:+ " is set"))])))
  end.

(** The sum of the counts of key [k] over the decisions of a sweep. *)
Definition total (k : string) (ds : list (Resource * ExpiryDecision)) : Z :=
  fold_right (fun td acc => count k (summary_of (snd td)) + acc) 0 ds.

(** [Q] selects the events of interest; a step from [w] to [w'] is quiet
    when the trace only grew and none of the new events is selected. *)
Definition quiet {P} (Q : Event (ConfigObj P) -> bool) (w w' : World P) : Prop :=
  exists new, trace w' = trace w ++ new /\ select Q new = [].

(** A computation all of whose steps are quiet. *)
Definition stays {P} (Q : Event (ConfigObj P) -> bool) {A} (m : M P A) : Prop :=
  forall w, quiet Q w (snd (m w)).

(** [tp] with other annotations (or none). *)
Definition with_annotations (tp : Resource) (a : option (gmap string string)) : Resource :=
  {| metadata := {| metadata_name := metadata_name (metadata tp);
                    metadata_annotations := a |};
     name := name tp |}.


(* ===================================================================== *)
(** ** Counting over a sweep, and reading texts *)
(* ===================================================================== *)

(** The portals of a sweep whose annotation parsed. *)
Definition parsed_items (ds : list (Resource * ExpiryDecision)) : list Resource :=
  map fst (filter (fun td => reads_clock (snd td) = true) ds).

(** The counter a sweep builds from the empty one when [n] annotations
    parsed and [m] of them were expired: keys appear when first counted,
    with-expiry before deleted. *)
Definition summary_counter (n m : nat) : dict :=
  match n, m with
  | O, _ => []
  | S _, O => [(WITH_EXPIRY, Z.of_nat n)]
  | S _, S _ => [(WITH_EXPIRY, Z.of_nat n); (DELETED, Z.of_nat m)]
  end.

Definition completion_line {C} (stats : string) : Event C :=
  Log LOGGER INFO ("Clean up run completed: " +:+ stats).

Definition failure_line {C} (e : exn) : Event C :=
  Log LOGGER ERROR ("Failed while running clean up loop: " +:+ str_exn e).



Definition is_completion_line {C} (ev : Event C) : bool :=
  match ev with
  | Log _ _ msg => starts_with "Clean up run completed: " msg
  | _ => false
  end.

(** A text that starts like one of the two lines that close a run. *)
Definition is_closing_text (msg : string) : bool :=
  orb (starts_with "Clean up run completed: " msg)
      (starts_with "Failed while running clean up loop: " msg).

Definition is_closing_line {C} (ev : Event C) : bool :=
  match ev with
  | Log _ _ msg => is_closing_text msg
  | _ => false
  end.

(** The statistics of a run in which [n] annotations parsed and [m] of the
    portals were expired, as the completion line shows them. *)
Definition stats_text (n m : nat) : string :=
  match n, m with
  | O, _ => EmptyString
  | S _, O => "trainingportal-with-expiry=" +:+ pretty (Z.of_nat n)
  | S _, S _ =>
      "trainingportal-with-expiry=" +:+ pretty (Z.of_nat n)
        +:+ ", trainingportal-deleted=" +:+ pretty (Z.of_nat m)
  end.

(** The events of the lookup and listing that open [sweep_objects]. *)
Definition listing_events {C} (tp_api_version : string) : list (Event C) :=
  [ResourcesGet tp_api_version "TrainingPortal";
   Log LOGGER DEBUG ("Listing " +:+ tp_api_version +:+ " training portals");
   ApiGet].

(** A time of day that is not midnight. *)
Definition after_midnight (t : datetime) : bool :=
  negb (andb (andb (hour t =? 0) (minute t =? 0))
             (andb (second t =? 0) (microsecond t =? 0))).

(** What [run_once] does once the configuration step returned
    [configuration]: build the client, sweep, report. *)
Definition after_configuration (strptime : string -> string -> option datetime)
    (P : Platform) (args : Args) (configuration : option (ConfigObj P)) : M P unit :=
  client ← call (NewApiClient configuration) (DynamicClient P configuration);
  counter ← sweep_objects strptime P client "training.educates.dev/v1beta1" []
              (dry_run args);
  log LOGGER INFO ("Clean up run completed: " +:+ join_items counter).

(** Some character of [s] satisfies [f]; all of them do. *)
Fixpoint occurs (f : ascii -> bool) (s : string) : bool :=
  match s with
  | EmptyString => false
  | String c s' => orb (f c) (occurs f s')
  end.

Fixpoint all_chars (f : ascii -> bool) (s : string) : bool :=
  match s with
  | EmptyString => true
  | String c s' => andb (f c) (all_chars f s')
  end.

(** A character that token [t] can consume: the literal in either case, or
    a character of one of the classes of the directive's alternatives. *)
Definition token_accepts (t : Strptime.token) (c : ascii) : bool :=
  match t with
  | Strptime.Lit x => Strptime.eqb_nocase x c
  | Strptime.Dir d =>
      existsb (fun alt => existsb (fun cls => cls c) alt) (Strptime.alternatives d)
  end.

Definition tokens_accept (ts : list Strptime.token) (c : ascii) : bool :=
  existsb (fun t => token_accepts t c) ts.

(** A clock that gives the same reading throughout. *)
Definition frozen_clock (P : Platform) : Prop :=
  forall k k', utcnow_at P k = utcnow_at P k'.

(** The patterns of [DATETIME_PATTERNS] under which CPython's [strptime]
    accepts [s]. *)
Definition accepting_patterns (s : string) : list string :=
  filter (fun p => is_Some (Strptime.strptime s p)) DATETIME_PATTERNS.

Definition directives (ts : list Strptime.token) : list Strptime.directive :=
  flat_map (fun t => match t with Strptime.Dir d => [d] | Strptime.Lit _ => [] end) ts.

(* ===================================================================== *)
(** ** A small cluster to run the program on *)
(* ===================================================================== *)

Module Demo.

Definition portal (n : string) (annotations : option (gmap string string)) : Resource :=
  {| metadata := {| metadata_name := n; metadata_annotations := annotations |};
     name := None |}.

Definition expiring (n expiry : string) : Resource :=
  portal n (Some {[ EXPIRY_ANNOTATION := expiry ]}).

Definition has_name (n : string) (tp : Resource) : bool :=
  String.eqb n (metadata_name (metadata tp)).

(** How the surroundings behave in an example: what the clock reads, if
    the API server refuses deletions, if it cannot be reached at all, and
    the run after which the shutdown flag is seen set. *)
Record Setup := {
  now : datetime;
  deny_delete : bool;
  offline : bool;
  stop_at : nat
}.

(** The cluster is the list of its portals.  Listing returns them;
    deleting removes the named one, and fails when deletions are refused
    or the portal is gone.  No in-cluster configuration is found, the
    local one loads. *)
Definition platform (s : Setup) : Platform := {|
  Cluster := list Resource;
  ConfigObj := string;
  Client := unit;
  Api := unit;
  utcnow_at := fun _ => now s;
  load_incluster_config := fun c =>
    (inl (OtherException "Service host/port is not set."), c);
  load_kube_config := fun c => (inr "kubeconfig", c);
  DynamicClient := fun _ c => (inr tt, c);
  resources_get := fun _ _ _ c =>
    if offline s then (inl (OtherException "Connection refused"), c)
    else (inr tt, c);
  api_get := fun _ c => (inr c, c);
  api_delete := fun _ n c =>
    if deny_delete s then (inl (OtherException "Forbidden"), c)
    else if existsb (has_name n) c
         then (inr tt, filter (fun tp => has_name n tp = false) c)
         else (inl (OtherException "Not Found"), c);
  handler := {| shutdown_now_at := fun i => Nat.leb (stop_at s) i;
                signal_in_sleep := fun _ => false |}
|}.

Definition world (s : Setup) (portals : list Resource) : World (platform s) :=
  mk_World (P := platform s) portals 0%nat [].

Definition new_year_2023 : datetime := mk_datetime 2023 1 1 0 0 0 0.
Definition new_year_2022 : datetime := mk_datetime 2022 1 1 0 0 0 0.

Definition old_portal : Resource := expiring "old" "2022-01-01T13:23:54Z".
Definition due_portal : Resource := expiring "due" "2022-01-01".
Definition bad_portal : Resource := expiring "bad" "not-a-date".
Definition blank_portal : Resource := expiring "blank" EmptyString.
Definition plain_portal : Resource := portal "plain" (Some ∅).
Definition bare_portal : Resource := portal "bare" None.
Definition late_portal : Resource := expiring "late" "2024-06-30T08:00".
Definition shadowing_portal : Resource := portal "shadowing" (Some {[ "get" := "x" ]}).

Definition args (dry once_ : bool) : Args :=
  {| dry_run := dry; verbose := false; once := once_; interval := 30 |}.



Definition healthy (t : datetime) : Setup :=
  {| now := t; deny_delete := false; offline := false; stop_at := 1 |}.
Definition forbidding (t : datetime) : Setup :=
  {| now := t; deny_delete := true; offline := false; stop_at := 1 |}.
Definition unreachable (t : datetime) : Setup :=
  {| now := t; deny_delete := false; offline := true; stop_at := 1 |}.

(** The same surroundings without any usable credentials: the local
    configuration does not load either. *)
Definition without_credentials (s : Setup) : Platform := {|
  Cluster := list Resource;
  ConfigObj := string;
  Client := unit;
  Api := unit;
  utcnow_at := utcnow_at (platform s);
  load_incluster_config := load_incluster_config (platform s);
  load_kube_config := fun c => (inl (OtherException "Invalid kube-config file."), c);
  DynamicClient := DynamicClient (platform s);
  resources_get := resources_get (platform s);
  api_get := api_get (platform s);
  api_delete := api_delete (platform s);
  handler := handler (platform s)
|}.

End Demo.

(* ===================================================================== *)
(** ** [strptime] on sample texts *)
(* ===================================================================== *)

Example strptime_seconds :
  Strptime.strptime "2022-01-01T13:23:54Z" "%Y-%m-%dT%H:%M:%SZ"
  = Some (mk_datetime 2022 1 1 13 23 54 0).
Proof. vm_compute. reflexivity. Qed.

Example strptime_minutes :
  Strptime.strptime "2022-01-01T13:23" "%Y-%m-%dT%H:%M"
  = Some (mk_datetime 2022 1 1 13 23 0 0).
Proof. vm_compute. reflexivity. Qed.

Example strptime_date :
  Strptime.strptime "2022-01-01" "%Y-%m-%d" = Some (mk_datetime 2022 1 1 0 0 0 0).
Proof. vm_compute. reflexivity. Qed.

Example strptime_short_fields :
  Strptime.strptime "2022-1-5" "%Y-%m-%d" = Some (mk_datetime 2022 1 5 0 0 0 0).
Proof. vm_compute. reflexivity. Qed.

Example strptime_unconverted :
  Strptime.strptime "2022-01-011" "%Y-%m-%d" = None.
Proof. vm_compute. reflexivity. Qed.

Example strptime_no_feb_30 :
  Strptime.strptime "2022-02-30" "%Y-%m-%d" = None.
Proof. vm_compute. reflexivity. Qed.

Example strptime_leap_second :
  Strptime.strptime "2022-01-01T13:23:60Z" "%Y-%m-%dT%H:%M:%SZ" = None.
Proof. vm_compute. reflexivity. Qed.

Example strptime_lower_case :
  Strptime.strptime "2022-01-01t13:23:54z" "%Y-%m-%dT%H:%M:%SZ"
  = Some (mk_datetime 2022 1 1 13 23 54 0).
Proof. vm_compute. reflexivity. Qed.

Example strptime_not_a_date :
  Strptime.strptime "not-a-date" "%Y-%m-%d" = None.
Proof. vm_compute. reflexivity. Qed.

(* ===================================================================== *)
(** ** Ordering of datetimes *)
(* ===================================================================== *)

Lemma lex_compare_antisym (a b : list Z) :
  lex_compare a b = CompOpp (lex_compare b a).
Proof.
  revert b; induction a as [|x a IH]; intros [|y b]; simpl; try reflexivity.
  rewrite (Z.compare_antisym x y).
  destruct (x ?= y) eqn:E; simpl; auto.
Qed.

Lemma lex_compare_refl (a : list Z) : lex_compare a a = Eq.
Proof.
  induction a as [|x a IH]; simpl; [reflexivity|].
  now rewrite Z.compare_refl.
Qed.

Lemma lex_compare_eq (a b : list Z) : lex_compare a b = Eq -> a = b.
Proof.
  revert b; induction a as [|x a IH]; intros [|y b]; simpl; try congruence.
  destruct (x ?= y) eqn:E; try congruence.
  apply Z.compare_eq in E. intros H. f_equal; auto.
Qed.

Lemma dt_cmp_antisym (a b : datetime) : dt_cmp a b = CompOpp (dt_cmp b a).
Proof. apply lex_compare_antisym. Qed.

Lemma dt_cmp_refl (a : datetime) : dt_cmp a a = Eq.
Proof. apply lex_compare_refl. Qed.

Lemma dt_cmp_eq (a b : datetime) : dt_cmp a b = Eq -> a = b.
Proof.
  intros H. apply lex_compare_eq in H.
  destruct a, b; unfold dt_fields in H; simpl in H.
  injection H; intros; subst; reflexivity.
Qed.

(** [now > ts] is [ts < now]. *)
Lemma dt_gtb_ltb (now ts : datetime) : dt_gtb now ts = dt_ltb ts now.
Proof.
  unfold dt_gtb, dt_ltb. rewrite (dt_cmp_antisym now ts).
  destruct (dt_cmp ts now); reflexivity.
Qed.

(** [now > ts] fails exactly when [now <= ts]. *)
Lemma dt_gtb_leb (now ts : datetime) : dt_gtb now ts = negb (dt_leb now ts).
Proof. unfold dt_gtb, dt_leb. destruct (dt_cmp now ts); reflexivity. Qed.

Lemma dt_eqb_eq (a b : datetime) : dt_eqb a b = true <-> a = b.
Proof.
  unfold dt_eqb. split.
  - destruct (dt_cmp a b) eqn:E; try discriminate. intros _. now apply dt_cmp_eq.
  - intros ->. now rewrite dt_cmp_refl.
Qed.

(** [ts <= now] is [ts < now] or [ts == now]. *)
Lemma dt_leb_ltb_eqb (ts now : datetime) :
  dt_leb ts now = orb (dt_ltb ts now) (dt_eqb ts now).
Proof. unfold dt_leb, dt_ltb, dt_eqb. destruct (dt_cmp ts now); reflexivity. Qed.

(* ===================================================================== *)
(** ** Dictionaries and counters *)
(* ===================================================================== *)

Lemma dict_get_set (k k' : string) (v : Z) (d : dict) :
  dict_get k' (dict_set k v d) = if String.eqb k' k then Some v else dict_get k' d.
Proof.
  induction d as [|[k0 v0] d IH]; simpl.
  - reflexivity.
  - destruct (String.eqb k k0) eqn:E; simpl.
    + apply String.eqb_eq in E; subst k0.
      destruct (String.eqb k' k); reflexivity.
    + rewrite IH. destruct (String.eqb k' k0) eqn:E0; [|reflexivity].
      apply String.eqb_eq in E0; subst k0.
      destruct (String.eqb k' k) eqn:E1; [|reflexivity].
      apply String.eqb_eq in E1; subst. rewrite String.eqb_refl in E. discriminate.
Qed.

Lemma count_set (k k' : string) (v : Z) (d : dict) :
  count k' (dict_set k v d) = if String.eqb k' k then v else count k' d.
Proof. unfold count. rewrite dict_get_set. destruct (String.eqb k' k); reflexivity. Qed.

(** Updating a counter with the dictionary of one resource adds the counts. *)
Lemma count_update_summary (k : string) (c : dict) (d : ExpiryDecision) :
  count k (Counter_update c (summary_of d)) = count k c + count k (summary_of d).
Proof.
  destruct d; unfold Counter_update; simpl; rewrite ?count_set; unfold count; simpl;
    unfold WITH_EXPIRY, DELETED;
    repeat match goal with
           | |- context [String.eqb ?a ?b] =>
               let E := fresh "E" in
               destruct (String.eqb a b) eqn:E;
               [apply String.eqb_eq in E; subst|]; simpl
           end;
    rewrite ?count_set; unfold count; simpl; try lia; try discriminate.
Qed.

(* ===================================================================== *)
(** ** What one call of [delete] and of the handler does *)
(* ===================================================================== *)

Lemma add_events_nil {P} (w : World P) : add_events w [] = w.
Proof. destruct w; unfold add_events; simpl. now rewrite app_nil_r. Qed.

Lemma add_events_app {P} (w : World P) (a b : list (Event (ConfigObj P))) :
  add_events (add_events w a) b = add_events w (a ++ b).
Proof. unfold add_events; simpl. now rewrite <- app_assoc. Qed.

Section Behaviour.

Variable strptime : string -> string -> option datetime.
Variable P : Platform.
Implicit Types (w : World P) (tp : Resource) (api : Api P).

(** Dry run: one log line, nothing else. *)
Lemma delete_dry_run api tp w :
  delete P api tp true w = (inr tt, add_events w [executor_entry true tp]).
Proof. reflexivity. Qed.

(** No dry run: the log line, the client call, and the error line when the
    client raises; [delete] itself never raises. *)
Lemma delete_real api tp w :
  delete P api tp false w =
  let r := api_delete P api (metadata_name (metadata tp)) (cluster w) in
  (inr tt, mk_World (snd r) (ticks w) (trace w ++ deletion_events tp (fst r))).
Proof.
  unfold delete, deletion_events, mbind, M_bind, try_except, call, log, emit; simpl.
  destruct (api_delete P api (metadata_name (metadata tp)) (cluster w)) as [[e|[]] c'];
    simpl; rewrite <- ?app_assoc; reflexivity.
Qed.


Lemma parse_expiry_raises_ValueError (expiry : string) (e : exn) :
  parse_expiry strptime expiry = inl e ->
  e = ValueError (parse_expiry_message expiry).
Proof.
  unfold parse_expiry. destruct (parse_with _ _ _); intros H; congruence.
Qed.

Lemma handle_unfold api tp dry w :
  handle_trainingportal_expiry strptime P api tp dry w
  = handler_result strptime P api tp dry w.
Proof.
  unfold handle_trainingportal_expiry, handler_result, evaluate, expiry_text.
  destruct (expiry_of tp) as [e|expiry]; [reflexivity|].
  destruct (truthy expiry) eqn:Ht; [|reflexivity].
  destruct expiry as [v|]; [|discriminate Ht]. cbn [default from_option id].
  destruct (parse_expiry strptime v) as [e|ts] eqn:Hp.
  - apply parse_expiry_raises_ValueError in Hp. subst e. reflexivity.
  - unfold mbind, M_bind, utcnow; simpl.
    destruct (dt_gtb (utcnow_at P (ticks w)) ts); [|reflexivity].
    destruct dry; [reflexivity|].
    unfold delete, mbind, M_bind, try_except, call, log, emit, add_events, tick; simpl.
    destruct (api_delete P api (metadata_name (metadata tp)) (cluster w)) as [[e|[]] c'];
      reflexivity.
Qed.

(** The handler raises what reading the annotation raises, and nothing
    else; otherwise it returns the dictionary of its branch. *)
Lemma handle_returns api tp dry w :
  fst (handle_trainingportal_expiry strptime P api tp dry w)
  = match evaluate strptime tp (utcnow_at P (ticks w)) with
    | inl e => inl e
    | inr d => inr (summary_of d)
    end.
Proof.
  rewrite handle_unfold. unfold handler_result.
  destruct (evaluate _ _ _) as [e|[]]; reflexivity.
Qed.

(** When reading the annotation raises, nothing else happens. *)
Lemma handle_raises api tp dry w e :
  evaluate strptime tp (utcnow_at P (ticks w)) = inl e ->
  handle_trainingportal_expiry strptime P api tp dry w = (inl e, w).
Proof.
  intros H. rewrite handle_unfold. unfold handler_result. now rewrite H.
Qed.

(** Whether reading raises does not depend on the parser or the clock. *)
Lemma evaluate_raises tp now e :
  evaluate strptime tp now = inl e <-> expiry_of tp = inl e.
Proof.
  unfold evaluate. destruct (expiry_of tp) as [e'|x]; split; congruence.
Qed.

Lemma evaluate_decides tp now :
  (exists d, evaluate strptime tp now = inr d) <-> (exists x, expiry_of tp = inr x).
Proof.
  unfold evaluate. destruct (expiry_of tp) as [e'|x]; split; intros [y H];
    try discriminate; eauto.
Qed.

End Behaviour.

(* ===================================================================== *)
(** ** Reading a trace *)
(* ===================================================================== *)

Lemma select_app {C} (f : Event C -> bool) (a b : list (Event C)) :
  select f (a ++ b) = select f a ++ select f b.
Proof. unfold select. apply filter_app. Qed.

Lemma executor_entry_selected {C} (dry : bool) (tp : Resource) :
  is_executor_entry (executor_entry (C := C) dry tp) = true.
Proof. destruct dry; reflexivity. Qed.

Lemma executor_entry_not_api_delete {C} (dry : bool) (tp : Resource) :
  is_api_delete (executor_entry (C := C) dry tp) = false.
Proof. destruct dry; reflexivity. Qed.

(** The two lines of the executor differ, whatever the names. *)
Lemma executor_entries_distinct {C} (tp tp' : Resource) :
  executor_entry (C := C) true tp <> executor_entry false tp'.
Proof. unfold executor_entry. intros H. injection H as H. lazy in H. discriminate. Qed.

Lemma select_deletion_events_entry {C} (tp : Resource) (r : exn + unit) :
  select is_executor_entry (deletion_events (C := C) tp r) = [executor_entry false tp].
Proof. destruct r as [e|u]; reflexivity. Qed.

Lemma select_deletion_events_api {C} (tp : Resource) (r : exn + unit) :
  select is_api_delete (deletion_events (C := C) tp r)
  = [ApiDelete (metadata_name (metadata tp))].
Proof. destruct r as [e|u]; reflexivity. Qed.

Lemma total_deleted (ds : list (Resource * ExpiryDecision)) :
  total DELETED ds = Z.of_nat (length (expired_items ds)).
Proof.
  unfold expired_items. induction ds as [|[tp d] ds IH]; [reflexivity|].
  simpl total. rewrite IH. rewrite filter_cons. simpl.
  destruct d; simpl; try reflexivity.
  rewrite Nat2Z.inj_succ. unfold count; simpl. lia.
Qed.

Lemma total_with_expiry (ds : list (Resource * ExpiryDecision)) :
  total WITH_EXPIRY ds = Z.of_nat (length (parsed_items ds)).
Proof.
  unfold parsed_items. induction ds as [|[tp d] ds IH]; [reflexivity|].
  simpl total. rewrite IH. rewrite filter_cons. simpl.
  destruct d; simpl; try reflexivity;
    rewrite Nat2Z.inj_succ; unfold count; simpl; lia.
Qed.

Lemma total_other (k : string) (ds : list (Resource * ExpiryDecision)) :
  k <> WITH_EXPIRY -> k <> DELETED -> total k ds = 0.
Proof.
  intros Hw Hd. apply String.eqb_neq in Hw, Hd.
  induction ds as [|[tp d] ds IH]; [reflexivity|].
  simpl total. rewrite IH.
  destruct d; unfold count; simpl; rewrite ?Hw, ?Hd; reflexivity.
Qed.

Lemma expired_are_parsed (ds : list (Resource * ExpiryDecision)) :
  (length (expired_items ds) <= length (parsed_items ds))%nat.
Proof.
  unfold expired_items, parsed_items.
  induction ds as [|[tp d] ds IH]; [reflexivity|].
  rewrite !filter_cons. simpl. destruct d; simpl; lia.
Qed.

Lemma expired_items_cons (tp : Resource) (d : ExpiryDecision)
    (ds : list (Resource * ExpiryDecision)) :
  expired_items ((tp, d) :: ds)
  = (if is_expired d then [tp] else []) ++ expired_items ds.
Proof.
  unfold expired_items. rewrite filter_cons. simpl.
  destruct (is_expired d); reflexivity.
Qed.

Lemma parsed_items_cons (tp : Resource) (d : ExpiryDecision)
    (ds : list (Resource * ExpiryDecision)) :
  parsed_items ((tp, d) :: ds)
  = (if reads_clock d then [tp] else []) ++ parsed_items ds.
Proof.
  unfold parsed_items. rewrite filter_cons. simpl.
  destruct (reads_clock d); reflexivity.
Qed.

(** The counts of a counter updated with the dictionaries of the decisions
    of a sweep, one after the other. *)
Lemma count_fold_summaries (k : string) (ds : list (Resource * ExpiryDecision)) :
  forall c : dict,
    count k (fold_left (fun acc td => Counter_update acc (summary_of (snd td))) ds c)
    = count k c + total k ds.
Proof.
  induction ds as [|[tp d] ds IH]; intros c; simpl.
  - lia.
  - rewrite IH, count_update_summary. lia.
Qed.

Lemma Counter_update_summary_counter (n m : nat) (d : ExpiryDecision) :
  (m <= n)%nat ->
  Counter_update (summary_counter n m) (summary_of d)
  = summary_counter (n + (if reads_clock d then 1 else 0))
                    (m + (if is_expired d then 1 else 0)).
Proof.
  intros Hle.
  assert (Hwd : String.eqb WITH_EXPIRY DELETED = false) by reflexivity.
  assert (Hdw : String.eqb DELETED WITH_EXPIRY = false) by reflexivity.
  destruct d as [|ts|ts|reason]; simpl reads_clock; simpl is_expired;
    cbv iota; rewrite ?Nat.add_0_r; try reflexivity.
  - destruct n as [|n]; [replace m with 0%nat by lia; reflexivity|].
    destruct m as [|m]; unfold Counter_update, summary_counter, count;
      cbn [summary_of fold_left dict_set dict_get fst snd default];
      rewrite ?String.eqb_refl, ?Hwd, ?Hdw;
      cbn [dict_get default];
      (replace (S n + 1)%nat with (S (n + 1)) by lia);
      repeat f_equal; unfold id; lia.
  - destruct n as [|n]; [replace m with 0%nat by lia; reflexivity|].
    destruct m as [|m]; unfold Counter_update, summary_counter, count;
      cbn [summary_of fold_left dict_set dict_get fst snd default];
      rewrite ?String.eqb_refl, ?Hwd, ?Hdw;
      cbn [dict_get default dict_set];
      rewrite ?String.eqb_refl, ?Hwd, ?Hdw;
      cbn [dict_get default dict_set];
      (replace (S n + 1)%nat with (S (n + 1)) by lia);
      try (replace (S m + 1)%nat with (S (m + 1)) by lia);
      repeat f_equal; unfold id; lia.
Qed.

Lemma fold_summary_counter (ds : list (Resource * ExpiryDecision)) : forall n m : nat,
  (m <= n)%nat ->
  fold_left (fun acc td => Counter_update acc (summary_of (snd td))) ds
    (summary_counter n m)
  = summary_counter (n + length (parsed_items ds)) (m + length (expired_items ds)).
Proof.
  induction ds as [|[tp d] ds IH]; intros n m Hle.
  - simpl. now rewrite !Nat.add_0_r.
  - simpl fold_left. rewrite Counter_update_summary_counter by exact Hle.
    rewrite IH by (destruct d; simpl; lia).
    unfold parsed_items, expired_items. rewrite !filter_cons. simpl.
    destruct d; simpl; f_equal; lia.
Qed.

(** The completion line shows a counter of that shape as [stats_text]. *)
Lemma join_items_summary_counter (n m : nat) :
  join_items (summary_counter n m) = stats_text n m.
Proof. destruct n as [|n]; [reflexivity|]. destruct m as [|m]; reflexivity. Qed.

Section Sweep.

Variable strptime : string -> string -> option datetime.
Variable P : Platform.
Implicit Types (w : World P) (tp : Resource) (api : Api P).

(** What one call of the handler adds to the world when the annotation
    could be read. *)
Lemma handle_effects api tp dry w d :
  evaluate strptime tp (utcnow_at P (ticks w)) = inr d ->
  let w' := snd (handle_trainingportal_expiry strptime P api tp dry w) in
  exists new,
    trace w' = trace w ++ new
    /\ ticks w' = (if reads_clock d then S (ticks w) else ticks w)
    /\ select is_executor_entry new
       = (if is_expired d then [executor_entry dry tp] else [])
    /\ select is_api_delete new
       = (if andb (is_expired d) (negb dry)
          then [ApiDelete (metadata_name (metadata tp))] else [])
    /\ cluster w'
       = (if andb (is_expired d) (negb dry)
          then snd (api_delete P api (metadata_name (metadata tp)) (cluster w))
          else cluster w).
Proof.
  intros He w'. subst w'. rewrite handle_unfold. unfold handler_result. rewrite He.
  destruct d as [|ts|ts|reason]; simpl.
  - exists []. rewrite app_nil_r. repeat split; reflexivity.
  - eexists. repeat split; reflexivity.
  - destruct dry.
    + rewrite delete_dry_run. simpl. rewrite <- app_assoc.
      eexists. split; [reflexivity|]. repeat split; reflexivity.
    + rewrite delete_real. simpl. rewrite <- app_assoc.
      eexists. split; [reflexivity|].
      rewrite !select_app, select_deletion_events_entry, select_deletion_events_api.
      repeat split; reflexivity.
  - eexists. repeat split; reflexivity.
Qed.

(** One step of the loop: when the annotation could be read, the rest is
    swept from the world the handler left, with the handler's dictionary
    added; when reading it raised, the loop ends there. *)
Lemma sweep_items_step api tp rest (c : dict) dry w d :
  evaluate strptime tp (utcnow_at P (ticks w)) = inr d ->
  sweep_items strptime P api (tp :: rest) c dry w
  = sweep_items strptime P api rest (Counter_update c (summary_of d)) dry
      (snd (handle_trainingportal_expiry strptime P api tp dry w)).
Proof.
  intros He. simpl. unfold mbind, M_bind.
  pose proof (handle_returns strptime P api tp dry w) as H. rewrite He in H.
  destruct (handle_trainingportal_expiry strptime P api tp dry w) as [[e|c1] w1];
    simpl in *; [discriminate|].
  injection H as ->. reflexivity.
Qed.

Lemma sweep_items_abort api tp rest (c : dict) dry w e :
  evaluate strptime tp (utcnow_at P (ticks w)) = inl e ->
  sweep_items strptime P api (tp :: rest) c dry w = (inl e, w).
Proof.
  intros He. simpl. unfold mbind, M_bind.
  now rewrite (handle_raises strptime P api tp dry w e He).
Qed.

(** The portals of the decisions are the portals reached. *)
Lemma sweep_decisions_reached items : forall k,
  map fst (sweep_decisions strptime P items k) = reached items.
Proof.
  induction items as [|tp rest IH]; intros k; [reflexivity|].
  simpl. unfold evaluate. destruct (expiry_of tp) as [e|x]; [reflexivity|].
  simpl. now rewrite IH.
Qed.

(** The loop over the listed portals: its trace, cluster, clock and result
    are those of the decisions taken one after the other, up to the first
    portal whose handling raises. *)
Lemma sweep_items_spec api dry items : forall (c : dict) w,
  let ds := sweep_decisions strptime P items (ticks w) in
  exists w' new,
    sweep_items strptime P api items c dry w
    = (match sweep_failure items with
       | Some e => inl e
       | None =>
           inr (fold_left (fun acc td => Counter_update acc (summary_of (snd td))) ds c)
       end, w')
    /\ trace w' = trace w ++ new
    /\ select is_executor_entry new = map (executor_entry dry) (expired_items ds)
    /\ select is_api_delete new
       = (if dry then [] else map api_delete_of (expired_items ds))
    /\ ticks w' = (ticks w + length (parsed_items ds))%nat
    /\ cluster w'
       = (if dry then cluster w
          else fold_left
                 (fun cl tp => snd (api_delete P api (metadata_name (metadata tp)) cl))
                 (expired_items ds) (cluster w)).
Proof.
  induction items as [|tp rest IH]; intros c w ds; subst ds.
  - exists w, []. simpl. rewrite app_nil_r, Nat.add_0_r.
    repeat split; try reflexivity; destruct dry; reflexivity.
  - simpl sweep_decisions. simpl sweep_failure.
    destruct (evaluate strptime tp (utcnow_at P (ticks w))) as [e|d] eqn:He.
    + rewrite (sweep_items_abort api tp rest c dry w e He).
      apply evaluate_raises in He. rewrite He.
      exists w, []. simpl. rewrite app_nil_r, Nat.add_0_r.
      repeat split; try reflexivity; destruct dry; reflexivity.
    + rewrite (sweep_items_step api tp rest c dry w d He).
      assert (Hx : exists x, expiry_of tp = inr x)
        by (apply (evaluate_decides strptime tp (utcnow_at P (ticks w))); eauto).
      destruct Hx as [x Hx]. rewrite Hx.
      destruct (handle_effects api tp dry w d He)
        as (new1 & Htr1 & Htk1 & Hex1 & Hapi1 & Hcl1).
      cbv zeta in Htr1, Htk1, Hcl1.
      set (w1 := snd (handle_trainingportal_expiry strptime P api tp dry w)) in *.
      rewrite <- Htk1.
      destruct (IH (Counter_update c (summary_of d)) w1)
        as (w' & new2 & Hrun & Htr2 & Hex2 & Hapi2 & Htk2 & Hcl2).
      exists w', (new1 ++ new2).
      rewrite Hrun, Htr2, Htr1, <- app_assoc, !select_app, Hex1, Hex2, Hapi1, Hapi2.
      rewrite expired_items_cons, parsed_items_cons, !map_app.
      split; [reflexivity|]. split; [reflexivity|].
      split; [destruct (is_expired d); reflexivity|].
      split; [destruct dry, (is_expired d); reflexivity|].
      split.
      * rewrite Htk2, Htk1, length_app. destruct (reads_clock d); simpl; lia.
      * rewrite Hcl2, Hcl1. destruct dry; [now rewrite andb_false_r|].
        rewrite andb_true_r, fold_left_app.
        destruct (is_expired d); reflexivity.
Qed.

(** The lookup and the listing, then the loop. *)
Lemma sweep_objects_listing client v (c : dict) dry w api c1 items c2 :
  resources_get P client v "TrainingPortal" (cluster w) = (inr api, c1) ->
  api_get P api c1 = (inr items, c2) ->
  sweep_objects strptime P client v c dry w
  = sweep_items strptime P api items c dry
      (mk_World c2 (ticks w) (trace w ++ listing_events v)).
Proof.
  intros H1 H2. unfold sweep_objects, mbind, M_bind, call, log, emit.
  rewrite H1. cbn [cluster ticks trace]. rewrite H2.
  cbn [cluster ticks trace]. rewrite <- !app_assoc. reflexivity.
Qed.

End Sweep.

(* ===================================================================== *)
(** ** One iteration of the driver *)
(* ===================================================================== *)


Section Iteration.

Variable strptime : string -> string -> option datetime.
Variable P : Platform.
Implicit Types (w : World P).

(** [except Exception] catches whatever the run raises. *)
Lemma guarded_run_returns args w : fst (guarded_run strptime P args w) = inr tt.
Proof.
  unfold guarded_run, try_except.
  destruct (run_once strptime P args w) as [[e|[]] w1]; reflexivity.
Qed.

Lemma startup_returns args w : fst (startup P args w) = inr tt.
Proof. unfold startup. destruct (dry_run args); reflexivity. Qed.

Lemma main_loop_unfold args fuel i w :
  main_loop strptime P (S fuel) args i w
  = (let w1 := snd (guarded_run strptime P args w) in
     if orb (once args) (shutdown_now_at (handler P) i) then (Returned, w1)
     else
       match time_sleep_error (interval args) with
       | Some e => (Raised e, w1)
       | None =>
           let w2 := add_events w1 [Sleep (interval args)] in
           if signal_in_sleep (handler P) i then (Exited 0, w2)
           else main_loop strptime P fuel args (S i) w2
       end).
Proof.
  simpl. pose proof (guarded_run_returns args w) as H.
  destruct (guarded_run strptime P args w) as [[e|u] w1]; simpl in *;
    [discriminate|].
  destruct (orb (once args) (shutdown_now_at (handler P) i)); [reflexivity|].
  unfold time_sleep. destruct (time_sleep_error (interval args)); reflexivity.
Qed.

Lemma main_unfold args fuel w :
  main strptime P fuel args w
  = main_loop strptime P fuel args 0%nat (snd (startup P args w)).
Proof.
  unfold main. pose proof (startup_returns args w) as H.
  destruct (startup P args w) as [[e|u] w0]; simpl in *; [discriminate|reflexivity].
Qed.

End Iteration.

(* ===================================================================== *)
(** ** Events a computation never emits *)
(* ===================================================================== *)

Section Quiet.

Variable strptime : string -> string -> option datetime.
Variable P : Platform.
Implicit Types (w : World P) (tp : Resource) (api : Api P).
Variable Q : Event (ConfigObj P) -> bool.

Lemma quiet_refl w : quiet Q w w.
Proof. exists []. now rewrite app_nil_r. Qed.

Lemma quiet_trans w1 w2 w3 : quiet Q w1 w2 -> quiet Q w2 w3 -> quiet Q w1 w3.
Proof.
  intros (n1 & H1 & S1) (n2 & H2 & S2). exists (n1 ++ n2).
  rewrite H2, H1, <- app_assoc, select_app, S1, S2. auto.
Qed.

Lemma quiet_select w w' : quiet Q w w' -> select Q (trace w') = select Q (trace w).
Proof. intros (n & H & S). now rewrite H, select_app, S, app_nil_r. Qed.

Lemma stays_ret {A} (x : A) : stays Q (mret x).
Proof. intros w. apply quiet_refl. Qed.

Lemma stays_raise {A} (e : exn) : stays Q (raise (A := A) e).
Proof. intros w. apply quiet_refl. Qed.

(** Sequencing, the continuation being looked at only on values the
    first computation can return. *)
Lemma stays_bind_on {A B} (m : M P A) (f : A -> M P B) :
  stays Q m ->
  (forall w x, fst (m w) = inr x -> quiet Q (snd (m w)) (snd (f x (snd (m w))))) ->
  stays Q (m ≫= f).
Proof.
  intros Hm Hf w. unfold mbind, M_bind.
  specialize (Hm w). specialize (Hf w).
  destruct (m w) as [[e|x] w1]; simpl in *; [assumption|].
  eapply quiet_trans; [exact Hm|]. now apply Hf.
Qed.

Lemma stays_bind {A B} (m : M P A) (f : A -> M P B) :
  stays Q m -> (forall x, stays Q (f x)) -> stays Q (m ≫= f).
Proof. intros Hm Hf. apply stays_bind_on; [assumption|]. intros w x _. apply Hf. Qed.

Lemma stays_try_except {A} (body : M P A) catches (handler : exn -> M P A) :
  stays Q body -> (forall e, stays Q (handler e)) -> stays Q (try_except body catches handler).
Proof.
  intros Hb Hh w. unfold try_except. specialize (Hb w).
  destruct (body w) as [[e|x] w1]; simpl in *; [|assumption].
  destruct (catches e); [|assumption].
  eapply quiet_trans; [exact Hb|]. apply Hh.
Qed.

Lemma stays_emit ev : Q ev = false -> stays Q (emit ev).
Proof.
  intros H w. exists [ev]. split; [reflexivity|].
  unfold select. rewrite filter_cons, H. simpl. reflexivity.
Qed.

Lemma stays_call {A} ev (f : Cluster P -> (exn + A) * Cluster P) :
  Q ev = false -> stays Q (call ev f).
Proof.
  intros H w. unfold call. destruct (f (cluster w)) as [r c']. simpl.
  exists [ev]. split; [reflexivity|].
  unfold select. rewrite filter_cons, H. simpl. reflexivity.
Qed.

Lemma stays_utcnow : stays Q utcnow.
Proof. intros w. exists []. simpl. now rewrite app_nil_r. Qed.

Lemma stays_time_sleep secs : Q (Sleep secs) = false -> stays Q (time_sleep secs).
Proof.
  intros H. unfold time_sleep.
  destruct (time_sleep_error secs); [apply stays_raise|now apply stays_emit].
Qed.

(** From here on [Q] selects, among the logging calls, at most lines that
    start like the two closing lines of a run, and no call that configures,
    builds or lists. *)
Hypothesis Q_text : forall l lv m, is_closing_text m = false -> Q (Log l lv m) = false.
Hypothesis Q_incluster : Q LoadInclusterConfig = false.
Hypothesis Q_kube : Q LoadKubeConfig = false.
Hypothesis Q_client : Q (NewApiClient None) = false.
Hypothesis Q_resources : forall v k, Q (ResourcesGet v k) = false.
Hypothesis Q_get : Q ApiGet = false.

Lemma stays_log l lv m : is_closing_text m = false -> stays Q (log l lv m).
Proof. intros H. apply stays_emit, Q_text, H. Qed.

Lemma stays_get_in_cluster_with_fallback : stays Q (get_in_cluster_with_fallback P).
Proof.
  unfold get_in_cluster_with_fallback.
  apply stays_bind; [now apply stays_log|]. intros _.
  apply stays_bind; [|intros; apply stays_ret].
  apply stays_try_except.
  - apply stays_bind; [now apply stays_call|]. intros; apply stays_ret.
  - intros e. apply stays_bind; [now apply stays_log|]. intros _.
    apply stays_bind; [now apply stays_log|]. intros _.
    apply stays_bind; [now apply stays_call|]. intros; apply stays_ret.
Qed.

(** The function returns [None] or raises. *)
Lemma get_in_cluster_with_fallback_result w :
  fst (get_in_cluster_with_fallback P w) = inr None
  \/ exists e, fst (get_in_cluster_with_fallback P w) = inl e.
Proof.
  unfold get_in_cluster_with_fallback, mbind, M_bind, try_except, call, log, emit, mret, M_ret.
  simpl.
  destruct (load_incluster_config P (cluster w)) as [[e|c] c1]; simpl; [|now left].
  destruct (load_kube_config P c1) as [[e2|c2] c3]; simpl; [right; eauto|now left].
Qed.

Section WithDryRun.

Variable dry : bool.
Hypothesis Q_delete : dry = false -> forall n, Q (ApiDelete n) = false.

Lemma stays_delete api tp : stays Q (delete P api tp dry).
Proof.
  unfold delete. destruct dry eqn:E; [now apply stays_log|].
  apply stays_bind; [now apply stays_log|]. intros _.
  apply stays_try_except; [apply stays_call; now apply Q_delete|].
  intros e. now apply stays_log.
Qed.

Lemma stays_handle api tp :
  stays Q (handle_trainingportal_expiry strptime P api tp dry).
Proof.
  unfold handle_trainingportal_expiry.
  destruct (expiry_of tp) as [e|expiry]; [apply stays_raise|].
  destruct (truthy expiry); [|apply stays_ret].
  destruct (parse_expiry strptime _) as [e|ts].
  - destruct (is_ValueError e); [|apply stays_raise].
    apply stays_bind; [now apply stays_log|]. intros; apply stays_ret.
  - apply stays_bind; [apply stays_utcnow|]. intros now.
    destruct (dt_gtb now ts).
    + apply stays_bind; [now apply stays_log|]. intros _.
      apply stays_bind; [apply stays_delete|]. intros; apply stays_ret.
    + apply stays_bind; [now apply stays_log|]. intros; apply stays_ret.
Qed.

Lemma stays_sweep_items api items : forall c,
  stays Q (sweep_items strptime P api items c dry).
Proof.
  induction items as [|tp rest IH]; intros c; simpl.
  - apply stays_ret.
  - apply stays_bind; [apply stays_handle|]. intros c1. apply IH.
Qed.

Lemma stays_sweep_objects client v c :
  stays Q (sweep_objects strptime P client v c dry).
Proof.
  unfold sweep_objects.
  apply stays_bind; [apply stays_call, Q_resources|]. intros api.
  apply stays_bind; [now apply stays_log|]. intros _.
  apply stays_bind; [apply stays_call, Q_get|]. intros items.
  apply stays_sweep_items.
Qed.

End WithDryRun.

(** From here on [Q] selects no logging call at all. *)
Hypothesis Q_log : forall l lv m, Q (Log l lv m) = false.

Lemma stays_run_once args :
  (dry_run args = false -> forall n, Q (ApiDelete n) = false) ->
  stays Q (run_once strptime P args).
Proof.
  intros Hd. unfold run_once.
  apply stays_bind_on; [apply stays_get_in_cluster_with_fallback|].
  intros w cfg Hcfg.
  destruct (get_in_cluster_with_fallback_result w) as [H|[e H]];
    rewrite H in Hcfg; [|discriminate].
  injection Hcfg as <-.
  apply stays_bind; [apply stays_call, Q_client|]. intros client.
  apply stays_bind; [now apply stays_sweep_objects|]. intros c.
  apply stays_emit, Q_log.
Qed.

Lemma stays_guarded_run args :
  (dry_run args = false -> forall n, Q (ApiDelete n) = false) ->
  stays Q (guarded_run strptime P args).
Proof.
  intros Hd. unfold guarded_run.
  apply stays_try_except; [now apply stays_run_once|].
  intros e. apply stays_emit, Q_log.
Qed.

Lemma stays_startup args :
  (forall lv, Q (BasicConfig lv) = false) -> stays Q (startup P args).
Proof.
  intros Hb. unfold startup.
  apply stays_bind; [apply stays_emit, Hb|]. intros _.
  apply stays_bind; [apply stays_emit, Q_log|]. intros _.
  destruct (dry_run args); [apply stays_emit, Q_log|apply stays_ret].
Qed.

(** The whole program, for a [Q] that selects no sleep either. *)
Lemma quiet_main_loop args :
  (dry_run args = false -> forall n, Q (ApiDelete n) = false) ->
  (forall s, Q (Sleep s) = false) ->
  forall fuel i w, quiet Q w (snd (main_loop strptime P fuel args i w)).
Proof.
  intros Hd Hs. induction fuel as [|fuel IH]; intros i w.
  - apply quiet_refl.
  - rewrite main_loop_unfold. cbv zeta.
    pose proof (stays_guarded_run args Hd w) as H1.
    destruct (orb (once args) (shutdown_now_at (handler P) i)); simpl; [exact H1|].
    destruct (time_sleep_error (interval args)); [exact H1|].
    pose proof (stays_emit (Sleep (interval args)) (Hs _)
                  (snd (guarded_run strptime P args w))) as H2.
    destruct (signal_in_sleep (handler P) i); simpl.
    + eapply quiet_trans; eassumption.
    + eapply quiet_trans; [exact H1|]. eapply quiet_trans; [exact H2|]. apply IH.
Qed.

Lemma quiet_main args :
  (dry_run args = false -> forall n, Q (ApiDelete n) = false) ->
  (forall s, Q (Sleep s) = false) ->
  (forall lv, Q (BasicConfig lv) = false) ->
  forall fuel w, quiet Q w (snd (main strptime P fuel args w)).
Proof.
  intros Hd Hs Hb fuel w. rewrite main_unfold.
  eapply quiet_trans; [apply (stays_startup args Hb)|].
  now apply quiet_main_loop.
Qed.

End Quiet.

(* ===================================================================== *)
(** ** The expiry decision *)
(* ===================================================================== *)

(** No pattern accepts the empty text. *)
Lemma parse_expiry_empty :
  parse_expiry Strptime.strptime EmptyString
  = inl (ValueError (parse_expiry_message EmptyString)).
Proof. vm_compute. reflexivity. Qed.

Lemma parsed_is_truthy (v : string) (ts : datetime) :
  parse_expiry Strptime.strptime v = inr ts -> truthy (Some v) = true.
Proof.
  destruct v as [|a v]; [|reflexivity].
  rewrite parse_expiry_empty. discriminate.
Qed.

(** The decision for a portal whose annotation is the non-empty [v]. *)
Lemma evaluate_annotated strptime (tp : Resource) (now : datetime) (v : string) :
  expiry_of tp = inr (Some v) -> truthy (Some v) = true ->
  evaluate strptime tp now
  = inr match parse_expiry strptime v with
        | inl e => Invalid (str_exn e)
        | inr ts => if dt_gtb now ts then Expired ts else Pending ts
        end.
Proof. intros Hv Ht. unfold evaluate. rewrite Hv, Ht. reflexivity. Qed.

(** C1 (as amended): for an annotation value that parses under one of the
    three formats, to the timestamp [ts], the handler takes the Expired
    branch, and hands the portal to [delete], if and only if [ts] is
    strictly before the reading [now] of the clock; it takes the Pending
    branch, without deletion, if and only if [now <= ts]; a timestamp equal
    to [now] is Pending. *)
Theorem C1_expired_iff_strictly_before_now :
  forall (P : Platform) (api : Api P) (tp : Resource) (dry : bool)
         (w : World P) (v : string) (ts : datetime),
    expiry_of tp = inr (Some v) ->
    parse_expiry Strptime.strptime v = inr ts ->
    let now := utcnow_at P (ticks w) in
    let w' := snd (handle_trainingportal_expiry Strptime.strptime P api tp dry w) in
    (evaluate Strptime.strptime tp now = inr (Expired ts) <-> dt_ltb ts now = true)
    /\ (evaluate Strptime.strptime tp now = inr (Pending ts) <-> dt_leb now ts = true)
    /\ (dt_eqb ts now = true -> evaluate Strptime.strptime tp now = inr (Pending ts))
    /\ exists new,
         trace w' = trace w ++ new
         /\ select is_executor_entry new
            = (if dt_ltb ts now then [executor_entry dry tp] else [])
         /\ select is_api_delete new
            = (if andb (dt_ltb ts now) (negb dry) then [api_delete_of tp] else [])
         /\ (dt_leb now ts = true -> cluster w' = cluster w).
Proof.
  intros P api tp dry w v ts Hv Hp now w'.
  pose proof (parsed_is_truthy v ts Hp) as Ht.
  pose proof (evaluate_annotated Strptime.strptime tp now v Hv Ht) as He.
  rewrite Hp in He.
  assert (Hgl : dt_gtb now ts = dt_ltb ts now) by apply dt_gtb_ltb.
  assert (Hge : dt_gtb now ts = negb (dt_leb now ts)) by apply dt_gtb_leb.
  split; [|split; [|split]].
  - rewrite He, <- Hgl. destruct (dt_gtb now ts); split; congruence.
  - rewrite He, Hge. destruct (dt_leb now ts); simpl; split; congruence.
  - intros Heq. apply dt_eqb_eq in Heq. subst ts.
    rewrite He. unfold dt_gtb. now rewrite dt_cmp_refl.
  - destruct (handle_effects Strptime.strptime P api tp dry w _ He)
      as (new & Htr & _ & Hex & Hapi & Hcl).
    fold w' in Htr, Hcl. rewrite <- Hgl.
    exists new. split; [exact Htr|].
    destruct (dt_gtb now ts) eqn:E; simpl in *.
    + repeat split; try assumption.
      intros Hle. rewrite Hle in Hge. discriminate Hge.
    + repeat split; auto.
Qed.

(** The portal of the specification's example, a year after its expiry:
    Expired, and deleted. *)
Lemma C1_witness_expired :
  expiry_of Demo.old_portal = inr (Some "2022-01-01T13:23:54Z")
  /\ parse_expiry Strptime.strptime "2022-01-01T13:23:54Z"
     = inr (mk_datetime 2022 1 1 13 23 54 0)
  /\ evaluate Strptime.strptime Demo.old_portal Demo.new_year_2023
     = inr (Expired (mk_datetime 2022 1 1 13 23 54 0)).
Proof.
  assert (Hv : expiry_of Demo.old_portal = inr (Some "2022-01-01T13:23:54Z"))
    by (vm_compute; reflexivity).
  assert (Hp : parse_expiry Strptime.strptime "2022-01-01T13:23:54Z"
               = inr (mk_datetime 2022 1 1 13 23 54 0))
    by (vm_compute; reflexivity).
  split; [exact Hv|]. split; [exact Hp|].
  apply (C1_expired_iff_strictly_before_now
           (Demo.platform (Demo.healthy Demo.new_year_2023)) tt Demo.old_portal false
           (Demo.world (Demo.healthy Demo.new_year_2023) [Demo.old_portal])
           "2022-01-01T13:23:54Z" (mk_datetime 2022 1 1 13 23 54 0) Hv Hp).
  vm_compute. reflexivity.
Defined.

(** A portal whose expiry is exactly the reading of the clock satisfies
    [ts <= now] and is nevertheless Pending: the handler logs that it will
    expire, removes nothing and leaves the deletion count at zero. *)
Lemma C1_counterexample_equal_is_pending :
  parse_expiry Strptime.strptime "2022-01-01" = inr Demo.new_year_2022
  /\ dt_leb Demo.new_year_2022 Demo.new_year_2022 = true
  /\ evaluate Strptime.strptime Demo.due_portal Demo.new_year_2022
     = inr (Pending Demo.new_year_2022)
  /\ evaluate Strptime.strptime Demo.due_portal Demo.new_year_2022
     <> inr (Expired Demo.new_year_2022)
  /\ handle_trainingportal_expiry Strptime.strptime
       (Demo.platform (Demo.healthy Demo.new_year_2022)) tt Demo.due_portal false
       (Demo.world (Demo.healthy Demo.new_year_2022) [Demo.due_portal])
     = (inr [(WITH_EXPIRY, 1)],
        mk_World (P := Demo.platform (Demo.healthy Demo.new_year_2022))
          [Demo.due_portal] 1%nat
          [Log ROOT_LOGGER DEBUG "TrainingPortal due will expire on 2022-01-01"]).
Proof.
  split; [vm_compute; reflexivity|].
  split; [vm_compute; reflexivity|].
  split; [vm_compute; reflexivity|].
  split; [vm_compute; discriminate|].
  vm_compute. reflexivity.
Qed.

(* ===================================================================== *)
(** ** The summary of an expired portal *)
(* ===================================================================== *)

(** C2 (as amended): for a portal that is expired, whatever the client
    does on deletion and with or without dry run, the handler returns
    exactly the dictionary with-expiry 1, deleted 1 (the code's labels are
    [trainingportal-with-expiry] and [trainingportal-deleted]), and the
    counter of the sweep grows by one under each of the two keys. *)
Theorem C2_expired_summary :
  forall (strptime : string -> string -> option datetime) (P : Platform)
         (api : Api P) (tp : Resource) (dry : bool) (w : World P)
         (ts : datetime) (c : dict),
    evaluate strptime tp (utcnow_at P (ticks w)) = inr (Expired ts) ->
    let result := handle_trainingportal_expiry strptime P api tp dry w in
    fst result = inr [(WITH_EXPIRY, 1); (DELETED, 1)]
    /\ count WITH_EXPIRY (Counter_update c [(WITH_EXPIRY, 1); (DELETED, 1)])
       = count WITH_EXPIRY c + 1
    /\ count DELETED (Counter_update c [(WITH_EXPIRY, 1); (DELETED, 1)])
       = count DELETED c + 1.
Proof.
  intros strptime P api tp dry w ts c He result. subst result.
  rewrite handle_returns, He. split; [reflexivity|].
  split.
  - exact (count_update_summary WITH_EXPIRY c (Expired ts)).
  - exact (count_update_summary DELETED c (Expired ts)).
Qed.

Lemma C2_witness_expired_summary :
  evaluate Strptime.strptime Demo.old_portal Demo.new_year_2023
  = inr (Expired (mk_datetime 2022 1 1 13 23 54 0))
  /\ fst (handle_trainingportal_expiry Strptime.strptime
            (Demo.platform (Demo.healthy Demo.new_year_2023)) tt Demo.old_portal false
            (Demo.world (Demo.healthy Demo.new_year_2023) [Demo.old_portal]))
     = inr [(WITH_EXPIRY, 1); (DELETED, 1)].
Proof.
  assert (He : evaluate Strptime.strptime Demo.old_portal Demo.new_year_2023
               = inr (Expired (mk_datetime 2022 1 1 13 23 54 0)))
    by (vm_compute; reflexivity).
  split; [exact He|].
  exact (proj1 (C2_expired_summary Strptime.strptime
                  (Demo.platform (Demo.healthy Demo.new_year_2023)) tt Demo.old_portal
                  false (Demo.world (Demo.healthy Demo.new_year_2023) [Demo.old_portal])
                  (mk_datetime 2022 1 1 13 23 54 0) [] He)).
Defined.

(** The API server refuses the deletion, no dry run: the client call
    raises, the portal stays in the cluster, the error is logged, and the
    returned dictionary still counts one deletion. *)
Lemma C2_counterexample_failed_delete_counted :
  api_delete (Demo.platform (Demo.forbidding Demo.new_year_2023)) tt "old"
    [Demo.old_portal]
  = (inl (OtherException "Forbidden"), [Demo.old_portal])
  /\ handle_trainingportal_expiry Strptime.strptime
       (Demo.platform (Demo.forbidding Demo.new_year_2023)) tt Demo.old_portal false
       (Demo.world (Demo.forbidding Demo.new_year_2023) [Demo.old_portal])
     = (inr [(WITH_EXPIRY, 1); (DELETED, 1)],
        mk_World (P := Demo.platform (Demo.forbidding Demo.new_year_2023))
          [Demo.old_portal] 1%nat
          [Log LOGGER INFO
             "TrainingPortal old expired on 2022-01-01T13:23:54Z and will be deleted (annotation janitor/expires is set)";
           Log LOGGER INFO "Deleting TrainingPortal old..";
           ApiDelete "old";
           Log LOGGER ERROR "Could not delete TrainingPortal old: Forbidden"])
  /\ count DELETED [(WITH_EXPIRY, 1); (DELETED, 1)] = 1.
Proof.
  split; [vm_compute; reflexivity|].
  split; [vm_compute; reflexivity|].
  reflexivity.
Qed.

(* ===================================================================== *)
(** ** A whole sweep *)
(* ===================================================================== *)

(** When no handling raises, every listed portal is reached. *)
Lemma reached_all (items : list Resource) :
  sweep_failure items = None -> reached items = items.
Proof.
  induction items as [|tp rest IH]; [reflexivity|]. simpl.
  destruct (expiry_of tp); [discriminate|]. intros H. now rewrite IH.
Qed.

(** Otherwise the listing is the portals reached, the portal whose
    handling raised, and the portals behind it. *)
Lemma reached_until_failure (items : list Resource) (e : exn) :
  sweep_failure items = Some e ->
  exists tp behind, items = reached items ++ tp :: behind /\ expiry_of tp = inl e.
Proof.
  induction items as [|tp rest IH]; [discriminate|]. simpl.
  destruct (expiry_of tp) as [e'|x] eqn:E.
  - intros [= ->]. exists tp, rest. auto.
  - intros H. destruct (IH H) as (tp' & behind & Hl & He).
    exists tp', behind. split; [|exact He]. simpl. now rewrite <- Hl.
Qed.

(** Reading the annotation raises exactly when it holds a key [get]. *)
Lemma expiry_of_raises (tp : Resource) (e : exn) :
  expiry_of tp = inl e
  <-> e = NOT_CALLABLE
      /\ exists m, metadata_annotations (metadata tp) = Some m /\ is_Some (m !! "get").
Proof.
  unfold expiry_of.
  destruct (metadata_annotations (metadata tp)) as [m|]; simpl.
  - destruct (m !! "get") as [g|] eqn:E; split.
    + intros [= <-]. split; [reflexivity|]. exists m. split; [reflexivity|].
      rewrite E. eauto.
    + intros [-> _]. reflexivity.
    + discriminate.
    + intros (_ & m' & [= <-] & [g Hg]). rewrite E in Hg. discriminate.
  - split; [discriminate|]. intros (_ & m & H & _). discriminate.
Qed.

Section SweepObjects.

Variable strptime : string -> string -> option datetime.
Variable P : Platform.
Implicit Types (w : World P) (tp : Resource) (api : Api P).

(** [sweep_objects] when the lookup and the listing return: the two calls,
    then the loop over exactly the portals listed. *)
Lemma sweep_objects_spec client v (c : dict) dry w api c1 items c2 :
  resources_get P client v "TrainingPortal" (cluster w) = (inr api, c1) ->
  api_get P api c1 = (inr items, c2) ->
  let ds := sweep_decisions strptime P items (ticks w) in
  exists w' new,
    sweep_objects strptime P client v c dry w
    = (match sweep_failure items with
       | Some e => inl e
       | None =>
           inr (fold_left (fun acc td => Counter_update acc (summary_of (snd td))) ds c)
       end, w')
    /\ trace w' = trace w ++ listing_events v ++ new
    /\ select is_executor_entry new = map (executor_entry dry) (expired_items ds)
    /\ select is_api_delete new
       = (if dry then [] else map api_delete_of (expired_items ds))
    /\ ticks w' = (ticks w + length (parsed_items ds))%nat
    /\ cluster w'
       = (if dry then c2
          else fold_left
                 (fun cl tp => snd (api_delete P api (metadata_name (metadata tp)) cl))
                 (expired_items ds) c2).
Proof.
  intros H1 H2 ds. subst ds.
  rewrite (sweep_objects_listing strptime P client v c dry w api c1 items c2 H1 H2).
  destruct (sweep_items_spec strptime P api dry items c
              (mk_World c2 (ticks w) (trace w ++ listing_events v)))
    as (w' & new & Hrun & Htr & Hex & Hapi & Htk & Hcl).
  cbn [ticks trace cluster] in *.
  exists w', new. rewrite Hrun, Htr, <- app_assoc. auto 10.
Qed.



End SweepObjects.

(* ===================================================================== *)
(** ** Deletion happens for the expired portals that the sweep reaches *)
(* ===================================================================== *)

(** C3 (as amended): in a sweep whose lookup and listing return, the loop
    handles the listed portals in order up to the first one whose handling
    raises (all of them when none raises); the portals handed to [delete]
    are, in order, exactly the portals reached whose decision is Expired,
    and the deletion requests sent to the client are those of the same
    portals (none under dry run).  A portal that is reached is handed to
    [delete] exactly when its annotation is present, non-empty, parses, and
    lies before the reading of the clock, and otherwise the cluster is left
    as it was; a portal whose handling raises is not handed to [delete]. *)
Theorem C3_deleted_iff_expired_and_reached :
  forall (strptime : string -> string -> option datetime) (P : Platform)
         (client : Client P) (api : Api P) (dry : bool) (v : string) (c : dict)
         (w : World P) (c1 c2 : Cluster P) (items : list Resource),
    resources_get P client v "TrainingPortal" (cluster w) = (inr api, c1) ->
    api_get P api c1 = (inr items, c2) ->
    let ds := sweep_decisions strptime P items (ticks w) in
    let w' := snd (sweep_objects strptime P client v c dry w) in
    map fst ds = reached items
    /\ match sweep_failure items with
       | None => reached items = items
       | Some e =>
           exists tp behind,
             items = reached items ++ tp :: behind /\ expiry_of tp = inl e
       end
    /\ (exists new,
          trace w' = trace w ++ listing_events v ++ new
          /\ select is_executor_entry new = map (executor_entry dry) (expired_items ds)
          /\ select is_api_delete new
             = (if dry then [] else map api_delete_of (expired_items ds)))
    /\ (forall (tp : Resource) (w0 : World P),
          let h := handle_trainingportal_expiry strptime P api tp dry w0 in
          match evaluate strptime tp (utcnow_at P (ticks w0)) with
          | inl e => h = (inl e, w0)
          | inr d =>
              is_expired d
              = match expiry_of tp with
                | inr (Some (String a s)) =>
                    match parse_expiry strptime (String a s) with
                    | inr ts => dt_gtb (utcnow_at P (ticks w0)) ts
                    | inl _ => false
                    end
                | _ => false
                end
              /\ exists new,
                   trace (snd h) = trace w0 ++ new
                   /\ select is_executor_entry new
                      = (if is_expired d then [executor_entry dry tp] else [])
                   /\ select is_api_delete new
                      = (if andb (is_expired d) (negb dry)
                         then [api_delete_of tp] else [])
                   /\ cluster (snd h)
                      = (if andb (is_expired d) (negb dry)
                         then snd (api_delete P api (metadata_name (metadata tp))
                                     (cluster w0))
                         else cluster w0)
          end).
Proof.
  intros strptime P client api dry v c w c1 c2 items H1 H2 ds w'.
  split; [apply sweep_decisions_reached|].
  split.
  { destruct (sweep_failure items) as [e|] eqn:E.
    - now apply reached_until_failure.
    - now apply reached_all. }
  split.
  { destruct (sweep_objects_spec strptime P client v c dry w api c1 items c2 H1 H2)
      as (w1 & new & Hrun & Htr & Hex & Hapi & _).
    subst w'. rewrite Hrun. cbn [snd]. exists new. auto. }
  intros tp w0 h.
  destruct (evaluate strptime tp (utcnow_at P (ticks w0))) as [e|d] eqn:He.
  - subst h. now apply handle_raises.
  - split.
    + revert He. unfold evaluate.
      destruct (expiry_of tp) as [e|[[|a s]|]]; simpl; intros [= <-]; try reflexivity.
      destruct (parse_expiry strptime (String a s)); [reflexivity|].
      destruct (dt_gtb _ _); reflexivity.
    + destruct (handle_effects strptime P api tp dry w0 d He)
        as (new & Htr & _ & Hex & Hapi & Hcl).
      exists new. auto.
Qed.

(** A listing of four portals, a year after the expiry of one of them:
    one deletion request, for that one. *)
Lemma C3_witness_mixed_listing :
  resources_get (Demo.platform (Demo.healthy Demo.new_year_2023)) tt
    "training.educates.dev/v1beta1" "TrainingPortal"
    [Demo.plain_portal; Demo.bad_portal; Demo.old_portal; Demo.late_portal]
  = (inr tt, [Demo.plain_portal; Demo.bad_portal; Demo.old_portal; Demo.late_portal])
  /\ api_get (Demo.platform (Demo.healthy Demo.new_year_2023)) tt
       [Demo.plain_portal; Demo.bad_portal; Demo.old_portal; Demo.late_portal]
     = (inr [Demo.plain_portal; Demo.bad_portal; Demo.old_portal; Demo.late_portal],
        [Demo.plain_portal; Demo.bad_portal; Demo.old_portal; Demo.late_portal])
  /\ exists new,
       trace (snd (sweep_objects Strptime.strptime
                     (Demo.platform (Demo.healthy Demo.new_year_2023)) tt
                     "training.educates.dev/v1beta1" [] false
                     (Demo.world (Demo.healthy Demo.new_year_2023)
                        [Demo.plain_portal; Demo.bad_portal; Demo.old_portal;
                         Demo.late_portal])))
       = listing_events "training.educates.dev/v1beta1" ++ new
       /\ select is_executor_entry new
          = [Log LOGGER INFO "Deleting TrainingPortal old.."]
       /\ select is_api_delete new = [ApiDelete "old"].
Proof.
  split; [reflexivity|]. split; [reflexivity|].
  destruct (C3_deleted_iff_expired_and_reached Strptime.strptime
              (Demo.platform (Demo.healthy Demo.new_year_2023)) tt tt false
              "training.educates.dev/v1beta1" []
              (Demo.world (Demo.healthy Demo.new_year_2023)
                 [Demo.plain_portal; Demo.bad_portal; Demo.old_portal; Demo.late_portal])
              [Demo.plain_portal; Demo.bad_portal; Demo.old_portal; Demo.late_portal]
              [Demo.plain_portal; Demo.bad_portal; Demo.old_portal; Demo.late_portal]
              [Demo.plain_portal; Demo.bad_portal; Demo.old_portal; Demo.late_portal]
              eq_refl eq_refl)
    as (_ & _ & (new & Htr & Hex & Hapi) & _).
  exists new. split; [exact Htr|]. split.
  - rewrite Hex. vm_compute. reflexivity.
  - rewrite Hapi. vm_compute. reflexivity.
Defined.

(** A portal whose decision is Expired, listed behind a portal with an
    annotation named [get]: the handling of the first raises, the sweep
    ends there, and the expired portal is neither handed to [delete] nor
    removed; the run logs the failure. *)
Lemma C3_counterexample_expired_not_reached :
  evaluate Strptime.strptime Demo.old_portal Demo.new_year_2023
  = inr (Expired (mk_datetime 2022 1 1 13 23 54 0))
  /\ sweep_objects Strptime.strptime
       (Demo.platform (Demo.healthy Demo.new_year_2023)) tt
       "training.educates.dev/v1beta1" [] false
       (Demo.world (Demo.healthy Demo.new_year_2023)
          [Demo.shadowing_portal; Demo.old_portal])
     = (inl NOT_CALLABLE,
        mk_World (P := Demo.platform (Demo.healthy Demo.new_year_2023))
          [Demo.shadowing_portal; Demo.old_portal] 0%nat
          (listing_events "training.educates.dev/v1beta1"))
  /\ select is_executor_entry
       (trace (snd (main Strptime.strptime
                      (Demo.platform (Demo.healthy Demo.new_year_2023)) 1
                      (Demo.args false true)
                      (Demo.world (Demo.healthy Demo.new_year_2023)
                         [Demo.shadowing_portal; Demo.old_portal]))))
     = []
  /\ cluster (snd (main Strptime.strptime
                     (Demo.platform (Demo.healthy Demo.new_year_2023)) 1
                     (Demo.args false true)
                     (Demo.world (Demo.healthy Demo.new_year_2023)
                        [Demo.shadowing_portal; Demo.old_portal])))
     = [Demo.shadowing_portal; Demo.old_portal].
Proof.
  split; [vm_compute; reflexivity|].
  split; [vm_compute; reflexivity|].
  split; vm_compute; reflexivity.
Qed.

(* ===================================================================== *)
(** ** Parsing the annotation *)
(* ===================================================================== *)

(** C4: [parse_expiry] tries the three formats in the order date-time with
    seconds and a trailing Z, date-time with minutes, date only, and returns
    the first result; when none accepts the text it fails with a
    [ValueError] whose message quotes the text and names the three formats;
    the handler then logs that message at INFO level and returns the empty
    dictionary: it does not raise, calls neither [delete] nor the client,
    and changes neither the cluster nor the clock. *)
Theorem C4_parse_expiry_priority_and_failure :
  forall (strptime : string -> string -> option datetime) (expiry : string),
    parse_expiry strptime expiry
    = match strptime expiry "%Y-%m-%dT%H:%M:%SZ" with
      | Some d => inr d
      | None =>
          match strptime expiry "%Y-%m-%dT%H:%M" with
          | Some d => inr d
          | None =>
              match strptime expiry "%Y-%m-%d" with
              | Some d => inr d
              | None =>
                  inl (ValueError
                         ("expiry value " +:+ String dquote expiry +:+ String dquote
                            " does not match format 2022-01-01T13:23:54Z, 2022-01-01T13:23, or 2022-01-01"))
              end
          end
      end
    /\ forall (P : Platform) (api : Api P) (tp : Resource) (dry : bool)
              (w : World P) (e : exn),
         expiry_of tp = inr (Some expiry) ->
         truthy (Some expiry) = true ->
         parse_expiry strptime expiry = inl e ->
         handle_trainingportal_expiry strptime P api tp dry w
         = (inr [],
            add_events w
              [Log LOGGER INFO
                 ("Ignoring invalid expiry date on TrainingPortal "
                    +:+ str_opt (name tp) +:+ ": expiry value "
                    +:+ String dquote expiry +:+ String dquote
                    " does not match format 2022-01-01T13:23:54Z, 2022-01-01T13:23, or 2022-01-01")]).
Proof.
  intros strptime expiry. split.
  - unfold parse_expiry, DATETIME_PATTERNS. simpl.
    destruct (strptime expiry "%Y-%m-%dT%H:%M:%SZ"); [reflexivity|].
    destruct (strptime expiry "%Y-%m-%dT%H:%M"); [reflexivity|].
    destruct (strptime expiry "%Y-%m-%d"); reflexivity.
  - intros P api tp dry w e Hv Ht Hp.
    rewrite handle_unfold. unfold handler_result.
    rewrite (evaluate_annotated strptime tp _ expiry Hv Ht), Hp.
    apply parse_expiry_raises_ValueError in Hp. subst e. reflexivity.
Qed.

Lemma C4_witness_not_a_date :
  handle_trainingportal_expiry Strptime.strptime
    (Demo.platform (Demo.healthy Demo.new_year_2023)) tt Demo.bad_portal false
    (Demo.world (Demo.healthy Demo.new_year_2023) [Demo.bad_portal])
  = (inr [],
     mk_World (P := Demo.platform (Demo.healthy Demo.new_year_2023))
       [Demo.bad_portal] 0%nat
       [Log LOGGER INFO
          ("Ignoring invalid expiry date on TrainingPortal None: expiry value "
             +:+ String dquote "not-a-date" +:+ String dquote
             " does not match format 2022-01-01T13:23:54Z, 2022-01-01T13:23, or 2022-01-01")]).
Proof.
  apply (proj2 (C4_parse_expiry_priority_and_failure Strptime.strptime "not-a-date")
           (Demo.platform (Demo.healthy Demo.new_year_2023)) tt Demo.bad_portal false
           (Demo.world (Demo.healthy Demo.new_year_2023) [Demo.bad_portal])
           (ValueError (parse_expiry_message "not-a-date"))).
  - vm_compute. reflexivity.
  - reflexivity.
  - vm_compute. reflexivity.
Defined.

(** The order matters to a parser that accepts a text under two patterns:
    the earlier pattern decides. *)
Example parse_expiry_first_wins :
  let strptime := fun (_ pattern : string) =>
    if String.eqb pattern "%Y-%m-%d" then Some Demo.new_year_2022
    else if String.eqb pattern "%Y-%m-%dT%H:%M" then Some Demo.new_year_2023
    else None in
  parse_expiry strptime "x" = inr Demo.new_year_2023.
Proof. reflexivity. Qed.

(* ===================================================================== *)
(** ** Portals without an expiry *)
(* ===================================================================== *)

(** Without annotations there is no expiry value; with annotations that
    hold neither the expiry key nor a key [get] there is none either. *)
Lemma expiry_of_absent (tp : Resource) :
  metadata_annotations (metadata tp) = None
  \/ (exists m, metadata_annotations (metadata tp) = Some m
                /\ m !! "get" = None
                /\ m !! EXPIRY_ANNOTATION = None) ->
  expiry_of tp = inr None.
Proof.
  unfold expiry_of. intros [H|(m & H & Hg & Hm)]; rewrite H; simpl; [reflexivity|].
  now rewrite Hg, Hm.
Qed.

Lemma handle_falsy strptime (P : Platform) (api : Api P) (tp : Resource)
    (dry : bool) (w : World P) (x : option string) :
  expiry_of tp = inr x -> truthy x = false ->
  evaluate strptime tp (utcnow_at P (ticks w)) = inr NoExpiry
  /\ handle_trainingportal_expiry strptime P api tp dry w = (inr [], w).
Proof.
  intros Hx H. unfold evaluate, handle_trainingportal_expiry. rewrite Hx, H. auto.
Qed.

(** C5 (the code at the failing input): a portal whose only annotation is
    named [get] has an annotation map that lacks the expiry key, and yet
    its evaluation does not yield NoExpiry with an empty summary: reading
    the annotation calls the value of that annotation, a string, which
    raises; the exception leaves the handler and the sweep, so the portal
    listed behind it, which is expired, is not deleted in that run. *)
Theorem C5_annotation_named_get_raises :
  metadata_annotations (metadata Demo.shadowing_portal) = Some {[ "get" := "x" ]}
  /\ ({[ "get" := "x" ]} : gmap string string) !! EXPIRY_ANNOTATION = None
  /\ expiry_of Demo.shadowing_portal = inl NOT_CALLABLE
  /\ evaluate Strptime.strptime Demo.shadowing_portal Demo.new_year_2023
     = inl (OtherException "'str' object is not callable")
  /\ handle_trainingportal_expiry Strptime.strptime
       (Demo.platform (Demo.healthy Demo.new_year_2023)) tt Demo.shadowing_portal false
       (Demo.world (Demo.healthy Demo.new_year_2023)
          [Demo.shadowing_portal; Demo.old_portal])
     = (inl (OtherException "'str' object is not callable"),
        Demo.world (Demo.healthy Demo.new_year_2023)
          [Demo.shadowing_portal; Demo.old_portal])
  /\ main Strptime.strptime (Demo.platform (Demo.healthy Demo.new_year_2023)) 1
       (Demo.args false true)
       (Demo.world (Demo.healthy Demo.new_year_2023)
          [Demo.shadowing_portal; Demo.old_portal])
     = (Returned,
        mk_World (P := Demo.platform (Demo.healthy Demo.new_year_2023))
          [Demo.shadowing_portal; Demo.old_portal] 0%nat
          [BasicConfig INFO;
           Log LOGGER INFO
             "TrainingPortal Janitor started with dry_run=False, interval=30, once=True, verbose=False";
           Log LOGGER DEBUG "Attempting to load in cluster config";
           LoadInclusterConfig;
           Log LOGGER DEBUG
             "Couldn't load in cluster config: Service host/port is not set.";
           Log LOGGER DEBUG "Attempting to load local client config";
           LoadKubeConfig;
           NewApiClient None;
           ResourcesGet "training.educates.dev/v1beta1" "TrainingPortal";
           Log LOGGER DEBUG "Listing training.educates.dev/v1beta1 training portals";
           ApiGet;
           Log LOGGER ERROR
             "Failed while running clean up loop: 'str' object is not callable"]).
Proof.
  split; [reflexivity|].
  split; [vm_compute; reflexivity|].
  split; [vm_compute; reflexivity|].
  split; [vm_compute; reflexivity|].
  split; vm_compute; reflexivity.
Qed.

Example plain_portal_no_expiry :
  handle_trainingportal_expiry Strptime.strptime
    (Demo.platform (Demo.healthy Demo.new_year_2023)) tt Demo.plain_portal false
    (Demo.world (Demo.healthy Demo.new_year_2023) [Demo.plain_portal])
  = (inr [], Demo.world (Demo.healthy Demo.new_year_2023) [Demo.plain_portal]).
Proof. vm_compute. reflexivity. Qed.

(* ===================================================================== *)
(** ** Dry run *)
(* ===================================================================== *)

(** C6 (as amended): under dry run the program never calls the client's
    delete, whatever the number of runs.  A sweep whose lookup and listing
    return leaves the cluster as the listing left it, sends no deletion
    request, and logs the dry-run line, in order, for exactly the expired
    portals that the loop reaches (all the listed portals when no handling
    raises); that line differs from the line of a real deletion.  When no
    handling raises, the sweep returns its counter, with one added to the
    deleted count for every expired portal; when one raises, the sweep
    raises that exception and returns no counter. *)
Theorem C6_dry_run_issues_no_deletion :
  forall (strptime : string -> string -> option datetime) (P : Platform)
         (args : Args) (client : Client P) (api : Api P) (v : string) (c : dict)
         (w : World P) (c1 c2 : Cluster P) (items : list Resource),
    dry_run args = true ->
    resources_get P client v "TrainingPortal" (cluster w) = (inr api, c1) ->
    api_get P api c1 = (inr items, c2) ->
    let ds := sweep_decisions strptime P items (ticks w) in
    let counted :=
      fold_left (fun acc td => Counter_update acc (summary_of (snd td))) ds c in
    (forall (fuel : nat) (w0 : World P),
        select is_api_delete (trace (snd (main strptime P fuel args w0)))
        = select is_api_delete (trace w0))
    /\ (exists w' new,
          sweep_objects strptime P client v c (dry_run args) w
          = (match sweep_failure items with
             | Some e => inl e
             | None => inr counted
             end, w')
          /\ trace w' = trace w ++ listing_events v ++ new
          /\ cluster w' = c2
          /\ select is_api_delete new = []
          /\ select is_executor_entry new
             = map (fun tp =>
                      Log LOGGER INFO
                        ("**DRY-RUN**: would delete TrainingPortal "
                           +:+ metadata_name (metadata tp)))
                   (expired_items ds))
    /\ map fst ds = reached items
    /\ (sweep_failure items = None -> map fst ds = items)
    /\ count DELETED counted = count DELETED c + Z.of_nat (length (expired_items ds))
    /\ (forall tp tp' : Resource,
          executor_entry (C := ConfigObj P) true tp <> executor_entry false tp').
Proof.
  intros strptime P args client api v c w c1 c2 items Hdry H1 H2 ds counted.
  split; [|split; [|split; [|split; [|split]]]].
  - intros fuel w0. apply quiet_select.
    apply quiet_main; try reflexivity.
    rewrite Hdry. discriminate.
  - rewrite Hdry.
    destruct (sweep_objects_spec strptime P client v c true w api c1 items c2 H1 H2)
      as (w' & new & Hrun & Htr & Hex & Hapi & _ & Hcl).
    exists w', new. auto 10.
  - apply sweep_decisions_reached.
  - intros Hnone. subst ds. rewrite sweep_decisions_reached. now apply reached_all.
  - subst counted. rewrite count_fold_summaries, total_deleted. reflexivity.
  - intros tp tp'. apply executor_entries_distinct.
Qed.

(** A dry-run sweep over three portals, one of them expired: the dry-run
    line of that one, the deleted count one, the cluster as listed. *)
Lemma C6_witness_dry_run :
  dry_run (Demo.args true false) = true
  /\ resources_get (Demo.platform (Demo.healthy Demo.new_year_2023)) tt
       "training.educates.dev/v1beta1" "TrainingPortal"
       [Demo.old_portal; Demo.bad_portal; Demo.late_portal]
     = (inr tt, [Demo.old_portal; Demo.bad_portal; Demo.late_portal])
  /\ api_get (Demo.platform (Demo.healthy Demo.new_year_2023)) tt
       [Demo.old_portal; Demo.bad_portal; Demo.late_portal]
     = (inr [Demo.old_portal; Demo.bad_portal; Demo.late_portal],
        [Demo.old_portal; Demo.bad_portal; Demo.late_portal])
  /\ exists w' new,
       sweep_objects Strptime.strptime
         (Demo.platform (Demo.healthy Demo.new_year_2023)) tt
         "training.educates.dev/v1beta1" [] true
         (Demo.world (Demo.healthy Demo.new_year_2023)
            [Demo.old_portal; Demo.bad_portal; Demo.late_portal])
       = (inr [(WITH_EXPIRY, 2); (DELETED, 1)], w')
       /\ trace w' = listing_events "training.educates.dev/v1beta1" ++ new
       /\ cluster w' = [Demo.old_portal; Demo.bad_portal; Demo.late_portal]
       /\ select is_api_delete new = []
       /\ select is_executor_entry new
          = [Log LOGGER INFO "**DRY-RUN**: would delete TrainingPortal old"].
Proof.
  split; [reflexivity|]. split; [reflexivity|]. split; [reflexivity|].
  destruct (C6_dry_run_issues_no_deletion Strptime.strptime
              (Demo.platform (Demo.healthy Demo.new_year_2023))
              (Demo.args true false) tt tt "training.educates.dev/v1beta1" []
              (Demo.world (Demo.healthy Demo.new_year_2023)
                 [Demo.old_portal; Demo.bad_portal; Demo.late_portal])
              [Demo.old_portal; Demo.bad_portal; Demo.late_portal]
              [Demo.old_portal; Demo.bad_portal; Demo.late_portal]
              [Demo.old_portal; Demo.bad_portal; Demo.late_portal]
              eq_refl eq_refl eq_refl)
    as (_ & (w' & new & Hrun & Htr & Hcl & Hapi & Hex) & _).
  exists w', new.
  split; [refine (eq_trans Hrun _); vm_compute; reflexivity|].
  split; [exact Htr|]. split; [exact Hcl|]. split; [exact Hapi|].
  rewrite Hex. vm_compute. reflexivity.
Defined.

(** Under dry run, an expired portal listed behind a portal with an
    annotation named [get]: the sweep raises, no counter is returned, and
    no dry-run line is logged for the expired portal. *)
Lemma C6_counterexample_expired_not_counted :
  evaluate Strptime.strptime Demo.old_portal Demo.new_year_2023
  = inr (Expired (mk_datetime 2022 1 1 13 23 54 0))
  /\ sweep_objects Strptime.strptime
       (Demo.platform (Demo.healthy Demo.new_year_2023)) tt
       "training.educates.dev/v1beta1" [] true
       (Demo.world (Demo.healthy Demo.new_year_2023)
          [Demo.shadowing_portal; Demo.old_portal])
     = (inl NOT_CALLABLE,
        mk_World (P := Demo.platform (Demo.healthy Demo.new_year_2023))
          [Demo.shadowing_portal; Demo.old_portal] 0%nat
          (listing_events "training.educates.dev/v1beta1"))
  /\ select is_executor_entry
       (trace (snd (main Strptime.strptime
                      (Demo.platform (Demo.healthy Demo.new_year_2023)) 1
                      (Demo.args true true)
                      (Demo.world (Demo.healthy Demo.new_year_2023)
                         [Demo.shadowing_portal; Demo.old_portal]))))
     = []
  /\ select is_completion_line
       (trace (snd (main Strptime.strptime
                      (Demo.platform (Demo.healthy Demo.new_year_2023)) 1
                      (Demo.args true true)
                      (Demo.world (Demo.healthy Demo.new_year_2023)
                         [Demo.shadowing_portal; Demo.old_portal]))))
     = [].
Proof.
  split; [vm_compute; reflexivity|].
  split; [vm_compute; reflexivity|].
  split; vm_compute; reflexivity.
Qed.

(** The same program without dry run does call the client. *)
Example real_run_deletes :
  select is_api_delete
    (trace (snd (main Strptime.strptime
                   (Demo.platform (Demo.healthy Demo.new_year_2023)) 3
                   (Demo.args false true)
                   (Demo.world (Demo.healthy Demo.new_year_2023)
                      [Demo.old_portal; Demo.bad_portal; Demo.late_portal]))))
  = [ApiDelete "old"].
Proof. vm_compute. reflexivity. Qed.

(* ===================================================================== *)
(** ** Where errors stop *)
(* ===================================================================== *)

Section Containment.

Variable strptime : string -> string -> option datetime.
Variable P : Platform.
Implicit Types (w : World P) (tp : Resource) (api : Api P).






End Containment.




Example isolation_in_one_sweep :
  select is_executor_entry
    (trace (snd (sweep_items Strptime.strptime
                   (Demo.platform (Demo.forbidding Demo.new_year_2023)) tt
                   [Demo.old_portal; Demo.bad_portal; Demo.due_portal] [] false
                   (Demo.world (Demo.forbidding Demo.new_year_2023) []))))
  = [Log LOGGER INFO "Deleting TrainingPortal old..";
     Log LOGGER INFO "Deleting TrainingPortal due.."].
Proof. vm_compute. reflexivity. Qed.

(** A failed listing is logged by the driver, which then sleeps and runs
    again. *)
Example failed_run_is_logged_and_retried :
  main Strptime.strptime (Demo.platform (Demo.unreachable Demo.new_year_2023)) 5
    (Demo.args false false)
    (Demo.world (Demo.unreachable Demo.new_year_2023) [])
  = (Returned,
     mk_World (P := Demo.platform (Demo.unreachable Demo.new_year_2023)) [] 0%nat
       [BasicConfig INFO;
        Log LOGGER INFO
          "TrainingPortal Janitor started with dry_run=False, interval=30, once=False, verbose=False";
        Log LOGGER DEBUG "Attempting to load in cluster config";
        LoadInclusterConfig;
        Log LOGGER DEBUG "Couldn't load in cluster config: Service host/port is not set.";
        Log LOGGER DEBUG "Attempting to load local client config";
        LoadKubeConfig;
        NewApiClient None;
        ResourcesGet "training.educates.dev/v1beta1" "TrainingPortal";
        Log LOGGER ERROR "Failed while running clean up loop: Connection refused";
        Sleep 30;
        Log LOGGER DEBUG "Attempting to load in cluster config";
        LoadInclusterConfig;
        Log LOGGER DEBUG "Couldn't load in cluster config: Service host/port is not set.";
        Log LOGGER DEBUG "Attempting to load local client config";
        LoadKubeConfig;
        NewApiClient None;
        ResourcesGet "training.educates.dev/v1beta1" "TrainingPortal";
        Log LOGGER ERROR "Failed while running clean up loop: Connection refused"]).
Proof. vm_compute. reflexivity. Qed.

(* ===================================================================== *)
(** ** Stopping and sleeping *)
(* ===================================================================== *)

Section Driver.

Variable strptime : string -> string -> option datetime.
Variable P : Platform.
Implicit Types (w : World P).





End Driver.




(** The flag is seen after the second run: two runs, one sleep between. *)
Example one_sleep_before_shutdown :
  select is_sleep
    (trace (snd (main Strptime.strptime
                   (Demo.platform (Demo.healthy Demo.new_year_2023)) 5
                   (Demo.args false false)
                   (Demo.world (Demo.healthy Demo.new_year_2023) [Demo.late_portal]))))
  = [Sleep 30].
Proof. vm_compute. reflexivity. Qed.

(* ===================================================================== *)
(** ** The configuration handed to the client *)
(* ===================================================================== *)

Section Configuration.

Variable strptime : string -> string -> option datetime.
Variable P : Platform.
Implicit Types (w : World P).

(** The three ways through [get_in_cluster_with_fallback]. *)
Lemma get_in_cluster_with_fallback_unfold w :
  get_in_cluster_with_fallback P w
  = match load_incluster_config P (cluster w) with
    | (inr _, c1) =>
        (inr None,
         mk_World c1 (ticks w) (trace w ++ [ATTEMPT_INCLUSTER; LoadInclusterConfig]))
    | (inl e, c1) =>
        let tr := trace w ++
                  [ATTEMPT_INCLUSTER; LoadInclusterConfig;
                   Log LOGGER DEBUG ("Couldn't load in cluster config: " +:+ str_exn e);
                   ATTEMPT_LOCAL; LoadKubeConfig] in
        match load_kube_config P c1 with
        | (inr _, c2) => (inr None, mk_World c2 (ticks w) tr)
        | (inl e2, c2) => (inl e2, mk_World c2 (ticks w) tr)
        end
    end.
Proof.
  unfold get_in_cluster_with_fallback, mbind, M_bind, try_except, call, log, emit,
    mret, M_ret, ATTEMPT_INCLUSTER, ATTEMPT_LOCAL.
  simpl.
  destruct (load_incluster_config P (cluster w)) as [[e|c] c1]; simpl.
  - destruct (load_kube_config P c1) as [[e2|c2] c3]; simpl;
      rewrite <- !app_assoc; reflexivity.
  - rewrite <- !app_assoc. reflexivity.
Qed.

(** Once the configuration step returned, the next event of the run is the
    construction of a client without configuration. *)
Lemma run_once_builds_unconfigured_client args w :
  match get_in_cluster_with_fallback P w with
  | (inr _, w1) =>
      exists rest,
        trace (snd (run_once strptime P args w)) = trace w1 ++ NewApiClient None :: rest
  | (inl _, _) => True
  end.
Proof.
  pose proof (get_in_cluster_with_fallback_result P w) as Hres.
  unfold run_once, mbind, M_bind.
  destruct (get_in_cluster_with_fallback P w) as [[e|cfg] w1]; [exact I|].
  simpl in Hres. destruct Hres as [H|[e H]]; [|discriminate].
  injection H as ->.
  unfold call at 1.
  destruct (DynamicClient P None (cluster w1)) as [[e|client] c1]; simpl.
  - exists []. reflexivity.
  - match goal with
    | |- context [match ?m ?w2 with _ => _ end] =>
        assert (Hq : quiet (P := P) (fun _ => false) w2 (snd (m w2)))
          by (apply stays_sweep_objects; reflexivity);
        destruct (m w2) as [[e|c] w3]
    end; simpl in *; destruct Hq as (new & Hnew & _); simpl in Hnew.
    + exists new. rewrite Hnew, <- app_assoc. reflexivity.
    + eexists. rewrite Hnew, <- !app_assoc. reflexivity.
Qed.

End Configuration.

(** C9: [get_in_cluster_with_fallback] returns [None] whenever it returns,
    whether the in-cluster or the local configuration loaded (it raises only
    when both fail); each run therefore builds its client with
    [configuration=None], and no execution of the program ever builds a
    client from a loaded configuration object. *)
Theorem C9_configuration_is_always_none :
  forall (strptime : string -> string -> option datetime) (P : Platform)
         (args : Args) (w : World P),
    get_in_cluster_with_fallback P w
    = match load_incluster_config P (cluster w) with
      | (inr _, c1) =>
          (inr None,
           mk_World c1 (ticks w)
             (trace w ++ [Log LOGGER DEBUG "Attempting to load in cluster config";
                          LoadInclusterConfig]))
      | (inl e, c1) =>
          let tr := trace w ++
                    [Log LOGGER DEBUG "Attempting to load in cluster config";
                     LoadInclusterConfig;
                     Log LOGGER DEBUG ("Couldn't load in cluster config: " +:+ str_exn e);
                     Log LOGGER DEBUG "Attempting to load local client config";
                     LoadKubeConfig] in
          match load_kube_config P c1 with
          | (inr _, c2) => (inr None, mk_World c2 (ticks w) tr)
          | (inl e2, c2) => (inl e2, mk_World c2 (ticks w) tr)
          end
      end
    /\ match get_in_cluster_with_fallback P w with
       | (inr configuration, w1) =>
           configuration = None
           /\ exists rest,
                trace (snd (run_once strptime P args w))
                = trace w1 ++ NewApiClient None :: rest
       | (inl _, _) => True
       end
    /\ forall fuel : nat,
         select is_configured_client (trace (snd (main strptime P fuel args w)))
         = select is_configured_client (trace w).
Proof.
  intros strptime P args w. split; [|split].
  - apply get_in_cluster_with_fallback_unfold.
  - pose proof (run_once_builds_unconfigured_client strptime P args w) as H.
    pose proof (get_in_cluster_with_fallback_result P w) as Hres.
    destruct (get_in_cluster_with_fallback P w) as [[e|cfg] w1]; [exact I|].
    split; [|exact H].
    simpl in Hres. destruct Hres as [Hn|[e Hn]]; congruence.
  - intros fuel. apply quiet_select. apply quiet_main; reflexivity.
Qed.

Example local_configuration_loaded_and_dropped :
  fst (get_in_cluster_with_fallback
         (Demo.platform (Demo.healthy Demo.new_year_2023))
         (Demo.world (Demo.healthy Demo.new_year_2023) []))
  = inr None
  /\ load_kube_config (Demo.platform (Demo.healthy Demo.new_year_2023)) []
     = (inr "kubeconfig", []).
Proof. split; reflexivity. Qed.

(* ===================================================================== *)
(** ** The empty annotation *)
(* ===================================================================== *)

(** What reading the expiry gives for a portal with annotations. *)
Lemma expiry_of_map (tp : Resource) (m : gmap string string) :
  metadata_annotations (metadata tp) = Some m ->
  expiry_of tp
  = match m !! "get" with
    | Some _ => inl NOT_CALLABLE
    | None => inr (m !! EXPIRY_ANNOTATION)
    end.
Proof. intros Ha. unfold expiry_of. rewrite Ha. reflexivity. Qed.

Lemma handle_reading_raises strptime (P : Platform) (api : Api P) (tp : Resource)
    (dry : bool) (w : World P) (e : exn) :
  expiry_of tp = inl e ->
  handle_trainingportal_expiry strptime P api tp dry w = (inl e, w).
Proof.
  intros H. apply handle_raises. now apply evaluate_raises.
Qed.

(** C10: a portal whose expiry annotation is the empty string is handled
    exactly like the same portal without that annotation: the handler gives
    the same result and leaves trace, cluster and clock untouched, whatever
    the parser is, so nothing is parsed, reported, counted or deleted.  The
    result is the empty dictionary, the decision being NoExpiry, and the
    same as for the portal without annotations, unless the annotations hold
    a key [get], in which case reading the annotation raises for both
    portals alike. *)
Theorem C10_empty_annotation_as_absent :
  forall (strptime : string -> string -> option datetime) (P : Platform)
         (api : Api P) (tp : Resource) (dry : bool) (w : World P)
         (m : gmap string string),
    metadata_annotations (metadata tp) = Some m ->
    m !! EXPIRY_ANNOTATION = Some EmptyString ->
    let h := handle_trainingportal_expiry strptime P api tp dry w in
    h = handle_trainingportal_expiry strptime P api
          (with_annotations tp (Some (base.delete EXPIRY_ANNOTATION m))) dry w
    /\ h = (match m !! "get" with
            | Some _ => inl NOT_CALLABLE
            | None => inr []
            end, w)
    /\ (forall strptime' : string -> string -> option datetime,
          handle_trainingportal_expiry strptime' P api tp dry w = h)
    /\ (forall now : datetime,
          evaluate strptime tp now
          = match m !! "get" with
            | Some _ => inl NOT_CALLABLE
            | None => inr NoExpiry
            end)
    /\ (m !! "get" = None ->
        evaluate strptime tp (utcnow_at P (ticks w)) = inr NoExpiry
        /\ h = (inr [], w)
        /\ h = handle_trainingportal_expiry strptime P api (with_annotations tp None)
                 dry w).
Proof.
  intros strptime P api tp dry w m Ha Hm h.
  pose proof (expiry_of_map tp m Ha) as He. rewrite Hm in He.
  assert (Ha' : metadata_annotations
                  (metadata (with_annotations tp (Some (base.delete EXPIRY_ANNOTATION m))))
                = Some (base.delete EXPIRY_ANNOTATION m)) by reflexivity.
  pose proof (expiry_of_map _ _ Ha') as He'.
  rewrite lookup_delete_ne in He' by discriminate.
  rewrite lookup_delete_eq in He'.
  assert (Hall : forall sp : string -> string -> option datetime,
             handle_trainingportal_expiry sp P api tp dry w
             = (match m !! "get" with
                | Some _ => inl NOT_CALLABLE
                | None => inr []
                end, w)).
  { intros sp. destruct (m !! "get") as [g|].
    - now apply handle_reading_raises.
    - now apply (handle_falsy sp P api tp dry w (Some EmptyString)). }
  split; [|split; [|split; [|split]]].
  - subst h. rewrite Hall. symmetry. destruct (m !! "get") as [g|].
    + now apply handle_reading_raises.
    + now apply (handle_falsy strptime P api _ dry w None).
  - apply Hall.
  - intros sp. subst h. now rewrite !Hall.
  - intros now. unfold evaluate. rewrite He.
    destruct (m !! "get"); reflexivity.
  - intros Hg. rewrite Hg in He, Hall.
    split; [now apply (handle_falsy strptime P api tp dry w (Some EmptyString))|].
    split; [apply Hall|].
    subst h. rewrite Hall. symmetry.
    now apply (handle_falsy strptime P api (with_annotations tp None) dry w None).
Qed.

Lemma C10_witness_blank_portal :
  metadata_annotations (metadata Demo.blank_portal)
  = Some {[ EXPIRY_ANNOTATION := EmptyString ]}
  /\ ({[ EXPIRY_ANNOTATION := EmptyString ]} : gmap string string) !! EXPIRY_ANNOTATION
     = Some EmptyString
  /\ handle_trainingportal_expiry Strptime.strptime
       (Demo.platform (Demo.healthy Demo.new_year_2023)) tt Demo.blank_portal false
       (Demo.world (Demo.healthy Demo.new_year_2023) [Demo.blank_portal])
     = (inr [], Demo.world (Demo.healthy Demo.new_year_2023) [Demo.blank_portal]).
Proof.
  assert (Hm : ({[ EXPIRY_ANNOTATION := EmptyString ]} : gmap string string)
               !! EXPIRY_ANNOTATION = Some EmptyString)
    by (vm_compute; reflexivity).
  split; [reflexivity|]. split; [exact Hm|].
  apply (C10_empty_annotation_as_absent Strptime.strptime
           (Demo.platform (Demo.healthy Demo.new_year_2023)) tt Demo.blank_portal false
           (Demo.world (Demo.healthy Demo.new_year_2023) [Demo.blank_portal])
           {[ EXPIRY_ANNOTATION := EmptyString ]} eq_refl Hm).
  vm_compute. reflexivity.
Defined.

(* ===================================================================== *)
(** ** The counter of a sweep *)
(* ===================================================================== *)

(** The count of every key after the dictionaries of a sweep were added. *)
Lemma count_fold_by_key (k : string) (ds : list (Resource * ExpiryDecision)) (c : dict) :
  count k (fold_left (fun acc td => Counter_update acc (summary_of (snd td))) ds c)
  = count k c
    + (if String.eqb k WITH_EXPIRY then Z.of_nat (length (parsed_items ds))
       else if String.eqb k DELETED then Z.of_nat (length (expired_items ds))
       else 0).
Proof.
  rewrite count_fold_summaries. f_equal.
  destruct (String.eqb k WITH_EXPIRY) eqn:Ew.
  - apply String.eqb_eq in Ew. subst k. apply total_with_expiry.
  - destruct (String.eqb k DELETED) eqn:Ed.
    + apply String.eqb_eq in Ed. subst k. apply total_deleted.
    + apply String.eqb_neq in Ew, Ed. now apply total_other.
Qed.

(** X1: a sweep whose lookup and listing return, and in which no handling
    raises, returns the counter it was given with the number of portals
    whose annotation parsed added under the with-expiry key, and the number
    of expired ones under the deleted key; every other key keeps its count.
    When a handling raises, the sweep raises that exception.  Either way the
    clock is read once per parsed annotation of a portal reached. *)
Theorem X1_sweep_counts :
  forall (strptime : string -> string -> option datetime) (P : Platform)
         (client : Client P) (api : Api P) (dry : bool) (v : string) (c : dict)
         (w : World P) (c1 c2 : Cluster P) (items : list Resource),
    resources_get P client v "TrainingPortal" (cluster w) = (inr api, c1) ->
    api_get P api c1 = (inr items, c2) ->
    let ds := sweep_decisions strptime P items (ticks w) in
    let counted :=
      fold_left (fun acc td => Counter_update acc (summary_of (snd td))) ds c in
    let r := sweep_objects strptime P client v c dry w in
    fst r = match sweep_failure items with
            | Some e => inl e
            | None => inr counted
            end
    /\ (forall k,
          count k counted
          = count k c
            + (if String.eqb k WITH_EXPIRY then Z.of_nat (length (parsed_items ds))
               else if String.eqb k DELETED then Z.of_nat (length (expired_items ds))
               else 0))
    /\ map fst ds = reached items
    /\ ticks (snd r) = (ticks w + length (parsed_items ds))%nat.
Proof.
  intros strptime P client api dry v c w c1 c2 items H1 H2 ds counted r. subst r.
  destruct (sweep_objects_spec strptime P client v c dry w api c1 items c2 H1 H2)
    as (w' & new & Hrun & _ & _ & _ & Htk & _).
  rewrite Hrun. cbn [fst snd].
  split; [reflexivity|]. split; [intros k; apply count_fold_by_key|].
  split; [apply sweep_decisions_reached|exact Htk].
Qed.

Lemma X1_witness_four_portals :
  resources_get (Demo.platform (Demo.healthy Demo.new_year_2023)) tt
    "training.educates.dev/v1beta1" "TrainingPortal"
    [Demo.old_portal; Demo.bad_portal; Demo.late_portal; Demo.due_portal]
  = (inr tt, [Demo.old_portal; Demo.bad_portal; Demo.late_portal; Demo.due_portal])
  /\ api_get (Demo.platform (Demo.healthy Demo.new_year_2023)) tt
       [Demo.old_portal; Demo.bad_portal; Demo.late_portal; Demo.due_portal]
     = (inr [Demo.old_portal; Demo.bad_portal; Demo.late_portal; Demo.due_portal],
        [Demo.old_portal; Demo.bad_portal; Demo.late_portal; Demo.due_portal])
  /\ fst (sweep_objects Strptime.strptime
            (Demo.platform (Demo.healthy Demo.new_year_2023)) tt
            "training.educates.dev/v1beta1" [(DELETED, 5)] true
            (Demo.world (Demo.healthy Demo.new_year_2023)
               [Demo.old_portal; Demo.bad_portal; Demo.late_portal; Demo.due_portal]))
     = inr [(DELETED, 7); (WITH_EXPIRY, 3)].
Proof.
  split; [reflexivity|]. split; [reflexivity|].
  refine (eq_trans
            (proj1 (X1_sweep_counts Strptime.strptime
                      (Demo.platform (Demo.healthy Demo.new_year_2023)) tt tt true
                      "training.educates.dev/v1beta1" [(DELETED, 5)]
                      (Demo.world (Demo.healthy Demo.new_year_2023)
                         [Demo.old_portal; Demo.bad_portal; Demo.late_portal;
                          Demo.due_portal])
                      [Demo.old_portal; Demo.bad_portal; Demo.late_portal; Demo.due_portal]
                      [Demo.old_portal; Demo.bad_portal; Demo.late_portal; Demo.due_portal]
                      [Demo.old_portal; Demo.bad_portal; Demo.late_portal; Demo.due_portal]
                      eq_refl eq_refl)) _).
  vm_compute. reflexivity.
Defined.

(* ===================================================================== *)
(** ** How a run ends *)
(* ===================================================================== *)

Section RunEnds.

Variable strptime : string -> string -> option datetime.
Variable P : Platform.
Implicit Types (w : World P).

Lemma run_once_after_configuration args w :
  run_once strptime P args w
  = (get_in_cluster_with_fallback P ≫= after_configuration strptime P args) w.
Proof. reflexivity. Qed.

(** The rest of a run: the client, the sweep, the completion line. *)
Lemma after_configuration_unfold args cfg w :
  after_configuration strptime P args cfg w
  = match DynamicClient P cfg (cluster w) with
    | (inl e, c1) => (inl e, mk_World c1 (ticks w) (trace w ++ [NewApiClient cfg]))
    | (inr client, c1) =>
        match sweep_objects strptime P client "training.educates.dev/v1beta1" []
                (dry_run args)
                (mk_World c1 (ticks w) (trace w ++ [NewApiClient cfg])) with
        | (inl e, w5) => (inl e, w5)
        | (inr c', w5) => (inr tt, add_events w5 [completion_line (join_items c')])
        end
    end.
Proof.
  unfold after_configuration, mbind, M_bind, call.
  destruct (DynamicClient P cfg (cluster w)) as [[e|client] c1]; [reflexivity|].
  destruct (sweep_objects strptime P client _ [] (dry_run args) _) as [[e|c'] w5];
    reflexivity.
Qed.

Lemma closing_line_of_text (l : string) (lv : Level) (m : string) :
  is_closing_text m = false -> is_closing_line (C := ConfigObj P) (Log l lv m) = false.
Proof. intros H. exact H. Qed.

(** Up to its last line, a run logs nothing that reads like a closing
    line. *)
Lemma after_configuration_cases args cfg w :
  match fst (after_configuration strptime P args cfg w) with
  | inr _ =>
      exists pre stats,
        trace (snd (after_configuration strptime P args cfg w))
        = trace w ++ pre ++ [completion_line stats]
        /\ select is_closing_line pre = []
  | inl _ =>
      exists pre,
        trace (snd (after_configuration strptime P args cfg w)) = trace w ++ pre
        /\ select is_closing_line pre = []
  end.
Proof.
  rewrite after_configuration_unfold.
  destruct (DynamicClient P cfg (cluster w)) as [[e|client] c1].
  { cbn [fst snd trace]. eexists. split; reflexivity. }
  match goal with
  | |- context [sweep_objects strptime P client ?v [] ?d ?w4] =>
      assert (Hq : quiet is_closing_line w4
                     (snd (sweep_objects strptime P client v [] d w4)))
        by (apply stays_sweep_objects;
            [apply closing_line_of_text|reflexivity|reflexivity|reflexivity]);
      destruct (sweep_objects strptime P client v [] d w4) as [[e|c'] w5]
  end; cbn [fst snd trace add_events] in *;
    destruct Hq as (new & Hnew & Hsel); cbn [trace] in Hnew.
  - exists (NewApiClient cfg :: new). rewrite Hnew, <- app_assoc.
    split; [reflexivity|].
    change (NewApiClient cfg :: new) with ([NewApiClient cfg] ++ new).
    rewrite select_app, Hsel. reflexivity.
  - exists (NewApiClient cfg :: new), (join_items c'). rewrite Hnew.
    rewrite <- !app_assoc. split; [reflexivity|].
    change (NewApiClient cfg :: new) with ([NewApiClient cfg] ++ new).
    rewrite select_app, Hsel. reflexivity.
Qed.

Lemma run_once_cases args w :
  match fst (run_once strptime P args w) with
  | inr _ =>
      exists pre stats,
        trace (snd (run_once strptime P args w)) = trace w ++ pre ++ [completion_line stats]
        /\ select is_closing_line pre = []
  | inl _ =>
      exists pre,
        trace (snd (run_once strptime P args w)) = trace w ++ pre
        /\ select is_closing_line pre = []
  end.
Proof.
  rewrite run_once_after_configuration. unfold mbind, M_bind.
  assert (Hcfg : quiet is_closing_line w (snd (get_in_cluster_with_fallback P w)))
    by (apply stays_get_in_cluster_with_fallback;
        [apply closing_line_of_text|reflexivity|reflexivity]).
  destruct Hcfg as (cfg_events & Hcfg & Hc).
  destruct (get_in_cluster_with_fallback P w) as [[e|cfg] w1]; cbn [fst snd] in *.
  - exists cfg_events. auto.
  - pose proof (after_configuration_cases args cfg w1) as H.
    destruct (after_configuration strptime P args cfg w1) as [[e|u] w2];
      cbn [fst snd] in *.
    + destruct H as (pre & -> & H1). rewrite Hcfg, <- app_assoc.
      eexists. split; [reflexivity|].
      rewrite select_app, H1, Hc. reflexivity.
    + destruct H as (pre & stats & -> & H1). rewrite Hcfg, <- app_assoc.
      exists (cfg_events ++ pre), stats. rewrite <- app_assoc.
      split; [reflexivity|]. rewrite select_app, H1, Hc. reflexivity.
Qed.

Lemma completion_line_closes (stats : string) :
  is_closing_line (C := ConfigObj P) (completion_line stats) = true.
Proof. reflexivity. Qed.

Lemma failure_line_closes (e : exn) :
  is_closing_line (C := ConfigObj P) (failure_line e) = true.
Proof. reflexivity. Qed.

End RunEnds.

(** X2: in a run whose configuration step, client construction, lookup and
    listing return and in which no handling raises, every listed portal is
    handled and the run ends by logging the completion line with the
    statistics of the sweep: nothing when no annotation parsed, the
    with-expiry count alone when none was expired, and otherwise the
    with-expiry count followed by the deleted count, which is never above
    it. *)
Theorem X2_summary_shape :
  forall (strptime : string -> string -> option datetime) (P : Platform)
         (args : Args) (w w1 : World P) (cfg : option (ConfigObj P))
         (client : Client P) (api : Api P) (c1 c2 c3 : Cluster P)
         (items : list Resource),
    get_in_cluster_with_fallback P w = (inr cfg, w1) ->
    DynamicClient P cfg (cluster w1) = (inr client, c1) ->
    resources_get P client "training.educates.dev/v1beta1" "TrainingPortal" c1
    = (inr api, c2) ->
    api_get P api c2 = (inr items, c3) ->
    sweep_failure items = None ->
    let ds := sweep_decisions strptime P items (ticks w1) in
    let n := length (parsed_items ds) in
    let m := length (expired_items ds) in
    (m <= n)%nat
    /\ map fst ds = items
    /\ exists w' new,
         run_once strptime P args w = (inr tt, w')
         /\ trace w'
            = trace w1 ++ [NewApiClient cfg]
                ++ listing_events "training.educates.dev/v1beta1" ++ new
                ++ [Log LOGGER INFO
                      ("Clean up run completed: "
                         +:+ match n, m with
                             | O, _ => EmptyString
                             | S _, O =>
                                 "trainingportal-with-expiry=" +:+ pretty (Z.of_nat n)
                             | S _, S _ =>
                                 "trainingportal-with-expiry=" +:+ pretty (Z.of_nat n)
                                   +:+ ", trainingportal-deleted="
                                   +:+ pretty (Z.of_nat m)
                             end)]
         /\ select is_executor_entry new
            = map (executor_entry (dry_run args)) (expired_items ds)
         /\ select is_closing_line new = [].
Proof.
  intros strptime P args w w1 cfg client api c1 c2 c3 items Hcfg Hcl H1 H2 Hok ds n m.
  split; [apply expired_are_parsed|].
  split; [subst ds; rewrite sweep_decisions_reached; now apply reached_all|].
  rewrite run_once_after_configuration. unfold mbind, M_bind. rewrite Hcfg.
  rewrite after_configuration_unfold, Hcl.
  set (w2 := mk_World c1 (ticks w1) (trace w1 ++ [NewApiClient cfg])).
  destruct (sweep_objects_spec strptime P client "training.educates.dev/v1beta1" []
              (dry_run args) w2 api c2 items c3 H1 H2)
    as (w5 & new & Hrun & Htr & Hex & _).
  assert (Hq : quiet is_closing_line w2
                 (snd (sweep_objects strptime P client "training.educates.dev/v1beta1"
                         [] (dry_run args) w2)))
    by (apply stays_sweep_objects;
        [apply closing_line_of_text|reflexivity|reflexivity|reflexivity]).
  rewrite Hrun in Hq |- *. rewrite Hok in *. cbn [fst snd ticks] in *.
  destruct Hq as (new' & Hnew' & Hsel).
  assert (Hsame : new' = listing_events "training.educates.dev/v1beta1" ++ new).
  { rewrite Hnew' in Htr. now apply app_inv_head in Htr. }
  subst new'. rewrite select_app in Hsel. apply app_eq_nil in Hsel as [_ Hsel].
  exists (add_events w5 [completion_line
                           (join_items
                              (fold_left
                                 (fun acc td => Counter_update acc (summary_of (snd td)))
                                 ds []))]), new.
  split; [reflexivity|]. split; [|split; [exact Hex|exact Hsel]].
  cbn [add_events trace]. rewrite Htr. subst w2. cbn [trace].
  change (@nil (string * Z)) with (summary_counter 0 0).
  rewrite fold_summary_counter by lia. cbn [Nat.add].
  rewrite join_items_summary_counter. fold n m.
  unfold completion_line, stats_text.
  rewrite <- !app_assoc. reflexivity.
Qed.

(** A dry run over four portals, two of them expired and one pending. *)
Lemma X2_witness_completion_line :
  exists w',
    run_once Strptime.strptime (Demo.platform (Demo.healthy Demo.new_year_2023))
      (Demo.args true true)
      (Demo.world (Demo.healthy Demo.new_year_2023)
         [Demo.old_portal; Demo.bad_portal; Demo.late_portal; Demo.due_portal])
    = (inr tt, w')
    /\ select is_closing_line (trace w')
       = [Log LOGGER INFO
            "Clean up run completed: trainingportal-with-expiry=3, trainingportal-deleted=2"].
Proof.
  destruct (X2_summary_shape Strptime.strptime
              (Demo.platform (Demo.healthy Demo.new_year_2023)) (Demo.args true true)
              (Demo.world (Demo.healthy Demo.new_year_2023)
                 [Demo.old_portal; Demo.bad_portal; Demo.late_portal; Demo.due_portal])
              _ None tt tt
              [Demo.old_portal; Demo.bad_portal; Demo.late_portal; Demo.due_portal]
              [Demo.old_portal; Demo.bad_portal; Demo.late_portal; Demo.due_portal]
              [Demo.old_portal; Demo.bad_portal; Demo.late_portal; Demo.due_portal]
              [Demo.old_portal; Demo.bad_portal; Demo.late_portal; Demo.due_portal]
              eq_refl eq_refl eq_refl eq_refl eq_refl)
    as (_ & _ & w' & new & Hrun & Htr & _ & Hsel).
  exists w'. split; [exact Hrun|].
  rewrite Htr, !select_app, Hsel. vm_compute. reflexivity.
Defined.

(** X3: every run of the loop body logs exactly one closing line, and logs
    it last.  When the run went through, it is the completion line with the
    statistics; when an exception left the run, it is the failure line with
    the text of the exception. *)
Theorem X3_run_ends_with_one_line :
  forall (strptime : string -> string -> option datetime) (P : Platform)
         (args : Args) (w : World P),
    let w' := snd (guarded_run strptime P args w) in
    exists pre last,
      trace w' = trace w ++ pre ++ [last]
      /\ select is_closing_line pre = []
      /\ select is_closing_line (pre ++ [last]) = [last]
      /\ match fst (run_once strptime P args w) with
         | inr _ => exists stats, last = completion_line stats
         | inl e => last = failure_line e
         end.
Proof.
  intros strptime P args w w'. subst w'.
  pose proof (run_once_cases strptime P args w) as H.
  unfold guarded_run, try_except.
  destruct (run_once strptime P args w) as [[e|u] w1]; cbn [fst snd] in *.
  - destruct H as (pre & Htr & Hsel).
    exists pre, (failure_line e).
    unfold is_Exception, log, emit. cbn [snd trace].
    rewrite Htr, <- app_assoc, select_app, Hsel.
    repeat split; reflexivity.
  - destruct H as (pre & stats & Htr & Hsel).
    exists pre, (completion_line stats).
    rewrite Htr, select_app, Hsel.
    repeat split; try reflexivity. now exists stats.
Qed.

(** X4: when neither the in-cluster nor the local configuration loads, the
    run ends there: no client is built, nothing is listed, the clock is not
    read, and the failure line reports the exception of the local loader. *)
Theorem X4_run_without_credentials :
  forall (strptime : string -> string -> option datetime) (P : Platform)
         (args : Args) (w : World P) (e1 e2 : exn) (c1 c2 : Cluster P),
    load_incluster_config P (cluster w) = (inl e1, c1) ->
    load_kube_config P c1 = (inl e2, c2) ->
    guarded_run strptime P args w
    = (inr tt,
       mk_World c2 (ticks w)
         (trace w ++
          [Log LOGGER DEBUG "Attempting to load in cluster config";
           LoadInclusterConfig;
           Log LOGGER DEBUG ("Couldn't load in cluster config: " +:+ str_exn e1);
           Log LOGGER DEBUG "Attempting to load local client config";
           LoadKubeConfig;
           Log LOGGER ERROR ("Failed while running clean up loop: " +:+ str_exn e2)])).
Proof.
  intros strptime P args w e1 e2 c1 c2 H1 H2.
  unfold guarded_run, try_except.
  rewrite run_once_after_configuration. unfold mbind at 1, M_bind at 1.
  rewrite get_in_cluster_with_fallback_unfold, H1. cbv zeta. rewrite H2.
  unfold is_Exception, log, emit, ATTEMPT_INCLUSTER, ATTEMPT_LOCAL.
  cbn [cluster ticks trace]. rewrite <- app_assoc. reflexivity.
Qed.

Lemma X4_witness_no_credentials :
  select is_configured_client
    (trace (snd (guarded_run Strptime.strptime
                   (Demo.without_credentials (Demo.healthy Demo.new_year_2023))
                   (Demo.args false true)
                   (mk_World (P := Demo.without_credentials (Demo.healthy Demo.new_year_2023))
                      [Demo.old_portal] 0%nat []))))
  = []
  /\ cluster (snd (guarded_run Strptime.strptime
                     (Demo.without_credentials (Demo.healthy Demo.new_year_2023))
                     (Demo.args false true)
                     (mk_World (P := Demo.without_credentials (Demo.healthy Demo.new_year_2023))
                        [Demo.old_portal] 0%nat [])))
     = [Demo.old_portal].
Proof.
  rewrite (X4_run_without_credentials Strptime.strptime
             (Demo.without_credentials (Demo.healthy Demo.new_year_2023))
             (Demo.args false true)
             (mk_World (P := Demo.without_credentials (Demo.healthy Demo.new_year_2023))
                [Demo.old_portal] 0%nat [])
             (OtherException "Service host/port is not set.")
             (OtherException "Invalid kube-config file.")
             [Demo.old_portal] [Demo.old_portal] eq_refl eq_refl).
  split; reflexivity.
Defined.

(* ===================================================================== *)
(** ** Credentials are loaded afresh in every iteration *)
(* ===================================================================== *)

Section Reload.

Variable strptime : string -> string -> option datetime.
Variable P : Platform.
Implicit Types (w : World P).




End Reload.



(* ===================================================================== *)
(* ===================================================================== *)

Lemma append_cons (a : ascii) (s t : string) :
  String a s +:+ t = String a (s +:+ t).
Proof. reflexivity. Qed.

Lemma append_nil_r (s : string) : s +:+ EmptyString = s.
Proof. induction s as [|a s IH]; [reflexivity|]. now rewrite append_cons, IH. Qed.

Lemma append_assoc (s t u : string) : (s +:+ t) +:+ u = s +:+ (t +:+ u).
Proof. induction s as [|a s IH]; [reflexivity|]. now rewrite !append_cons, IH. Qed.

Lemma all_chars_append (f : ascii -> bool) (s t : string) :
  all_chars f (s +:+ t) = andb (all_chars f s) (all_chars f t).
Proof.
  induction s as [|a s IH]; [reflexivity|].
  rewrite append_cons. cbn [all_chars]. now rewrite IH, andb_assoc.
Qed.

Lemma occurs_append (f : ascii -> bool) (s t : string) :
  occurs f (s +:+ t) = orb (occurs f s) (occurs f t).
Proof.
  induction s as [|a s IH]; [reflexivity|].
  rewrite append_cons. cbn [occurs]. now rewrite IH, orb_assoc.
Qed.

Lemma all_chars_impl (f g : ascii -> bool) (s : string) :
  (forall c, f c = true -> g c = true) -> all_chars f s = true -> all_chars g s = true.
Proof.
  intros Hfg. induction s as [|a s IH]; [reflexivity|]. cbn [all_chars].
  intros H. apply andb_true_iff in H as [Ha Hs].
  apply andb_true_iff. split; [now apply Hfg|now apply IH].
Qed.

(** A character in every class of [f] and one of [g] being present, some
    character is in both. *)
Lemma all_chars_occurs (f g : ascii -> bool) (s : string) :
  all_chars f s = true -> occurs g s = true ->
  exists c, f c = true /\ g c = true.
Proof.
  induction s as [|a s IH]; cbn [all_chars occurs]; [discriminate|].
  intros Hf Hg. apply andb_true_iff in Hf as [Ha Hs].
  apply orb_true_iff in Hg as [Hg|Hg]; [exists a; auto|now apply IH].
Qed.

Lemma first_some_inv {A B} (f : A -> option B) (l : list A) (y : B) :
  Strptime.first_some f l = Some y -> exists x, In x l /\ f x = Some y.
Proof.
  induction l as [|x l IH]; simpl; [discriminate|].
  destruct (f x) as [y'|] eqn:E.
  - intros [= <-]. exists x. auto.
  - intros H. destruct (IH H) as (x' & Hin & Hx). exists x'. auto.
Qed.

Lemma match_alt_inv (alt : Strptime.alternative) : forall (s txt r : string),
  Strptime.match_alt alt s = Some (txt, r) ->
  s = txt +:+ r
  /\ all_chars (fun c => existsb (fun cls => cls c) alt) txt = true.
Proof.
  induction alt as [|cls alt IH]; intros s txt r; simpl.
  - intros [= <- <-]. auto.
  - destruct s as [|c s]; [discriminate|].
    destruct (cls c) eqn:Ec; [|discriminate].
    destruct (Strptime.match_alt alt s) as [[txt' r']|] eqn:E; [|discriminate].
    intros [= <- <-]. destruct (IH _ _ _ E) as [-> Hall].
    split; [reflexivity|]. cbn [all_chars existsb]. rewrite Ec. simpl.
    eapply all_chars_impl; [|exact Hall].
    intros c' H. cbn beta. rewrite H. apply orb_true_r.
Qed.

Lemma tokens_accept_cons (t : Strptime.token) (ts : list Strptime.token) (c : ascii) :
  tokens_accept (t :: ts) c = orb (token_accepts t c) (tokens_accept ts c).
Proof. reflexivity. Qed.

(** A match of a token sequence: the text consumed is made of characters
    that the tokens accept, every literal of the sequence occurs in it, and
    the fields are those of the directives, in order. *)
Lemma match_tokens_inv (ts : list Strptime.token) :
  forall (s : string) (fs : list (Strptime.directive * string)) (r : string),
    Strptime.match_tokens ts s = Some (fs, r) ->
    exists txt,
      s = txt +:+ r
      /\ all_chars (tokens_accept ts) txt = true
      /\ map fst fs = directives ts
      /\ forall x, In (Strptime.Lit x) ts -> occurs (Strptime.eqb_nocase x) txt = true.
Proof.
  induction ts as [|t ts IH]; intros s fs r H.
  - simpl in H. injection H as <- <-. exists EmptyString.
    repeat split; try reflexivity. intros x [].
  - destruct t as [x|d]; simpl in H.
    + destruct s as [|c s]; [discriminate|].
      destruct (Strptime.eqb_nocase x c) eqn:Ec; [|discriminate].
      destruct (IH _ _ _ H) as (txt & -> & Hall & Hfs & Hlit).
      exists (String c txt). split; [reflexivity|]. split; [|split].
      * cbn [all_chars]. rewrite tokens_accept_cons. cbn [token_accepts].
        rewrite Ec. simpl.
        eapply all_chars_impl; [|exact Hall].
        intros c' Hc'. rewrite tokens_accept_cons, Hc'. apply orb_true_r.
      * exact Hfs.
      * intros y [Hy|Hy]; cbn [occurs].
        -- injection Hy as <-. now rewrite Ec.
        -- rewrite (Hlit y Hy). apply orb_true_r.
    + apply first_some_inv in H as (alt & Hin & H).
      destruct (Strptime.match_alt alt s) as [[t1 s1]|] eqn:Ealt; [|discriminate].
      destruct (Strptime.match_tokens ts s1) as [[fs' r']|] eqn:Ets; [|discriminate].
      injection H as <- <-.
      destruct (match_alt_inv _ _ _ _ Ealt) as [-> Hall1].
      destruct (IH _ _ _ Ets) as (txt & -> & Hall & Hfs & Hlit).
      exists (t1 +:+ txt). split; [now rewrite append_assoc|]. split; [|split].
      * rewrite all_chars_append. apply andb_true_iff. split.
        -- eapply all_chars_impl; [|exact Hall1].
           intros c Hc. rewrite tokens_accept_cons.
           apply orb_true_iff. left. cbn [token_accepts].
           apply existsb_exists. exists alt. auto.
        -- eapply all_chars_impl; [|exact Hall].
           intros c Hc. rewrite tokens_accept_cons, Hc. apply orb_true_r.
      * cbn [map fst directives flat_map app]. f_equal. exact Hfs.
      * intros y [Hy|Hy]; [discriminate|].
        rewrite occurs_append, (Hlit y Hy). apply orb_true_r.
Qed.

(** A text that [strptime] accepts matched the tokens of the format to its
    end. *)
Lemma strptime_inv (s fmt : string) (d : datetime) :
  Strptime.strptime s fmt = Some d ->
  exists ts fs,
    Strptime.tokenize fmt = Some ts
    /\ Strptime.match_tokens ts s = Some (fs, EmptyString)
    /\ Strptime.build fs = Some d.
Proof.
  unfold Strptime.strptime.
  destruct (Strptime.tokenize fmt) as [ts|]; [|discriminate].
  destruct (Strptime.match_tokens ts s) as [[fs [|a r]]|] eqn:E; try discriminate.
  intros H. exists ts, fs. auto.
Qed.

Lemma accepted_text (s fmt : string) (d : datetime) (ts : list Strptime.token) :
  Strptime.tokenize fmt = Some ts ->
  Strptime.strptime s fmt = Some d ->
  all_chars (tokens_accept ts) s = true
  /\ forall x, In (Strptime.Lit x) ts -> occurs (Strptime.eqb_nocase x) s = true.
Proof.
  intros Hts H. apply strptime_inv in H as (ts' & fs & Hts' & Hm & _).
  rewrite Hts in Hts'. injection Hts' as <-.
  apply match_tokens_inv in Hm as (txt & -> & Hall & _ & Hlit).
  rewrite append_nil_r. auto.
Qed.

(** A format whose tokens accept no character that the literal [x] of
    another format matches cannot accept the same text as that format. *)
Lemma formats_exclusive (s f g : string) (d d' : datetime)
    (tf tg : list Strptime.token) (x : ascii) :
  Strptime.tokenize f = Some tf ->
  Strptime.tokenize g = Some tg ->
  In (Strptime.Lit x) tg ->
  (forall c, tokens_accept tf c = true -> Strptime.eqb_nocase x c = false) ->
  Strptime.strptime s f = Some d ->
  Strptime.strptime s g = Some d' ->
  False.
Proof.
  intros Hf Hg Hx Hno Hsf Hsg.
  destruct (accepted_text s f d tf Hf Hsf) as [Hall _].
  destruct (accepted_text s g d' tg Hg Hsg) as [_ Hlit].
  destruct (all_chars_occurs _ _ s Hall (Hlit x Hx)) as (c & Hc1 & Hc2).
  rewrite (Hno c Hc1) in Hc2. discriminate.
Qed.

Ltac by_character c :=
  destruct c as [[] [] [] [] [] [] [] []]; vm_compute; intros H;
  first [reflexivity | discriminate H].

(** A date has no T, and a date-time without seconds no Z. *)
Lemma date_tokens_accept_no_T (c : ascii) :
  tokens_accept
    [Strptime.Dir Strptime.dY; Strptime.Lit "-"; Strptime.Dir Strptime.dm;
     Strptime.Lit "-"; Strptime.Dir Strptime.dd] c = true ->
  Strptime.eqb_nocase "T" c = false.
Proof. by_character c. Qed.

Lemma minutes_tokens_accept_no_Z (c : ascii) :
  tokens_accept
    [Strptime.Dir Strptime.dY; Strptime.Lit "-"; Strptime.Dir Strptime.dm;
     Strptime.Lit "-"; Strptime.Dir Strptime.dd; Strptime.Lit "T";
     Strptime.Dir Strptime.dH; Strptime.Lit ":"; Strptime.Dir Strptime.dM] c = true ->
  Strptime.eqb_nocase "Z" c = false.
Proof. by_character c. Qed.

Lemma date_excludes_minutes (s : string) (d d' : datetime) :
  Strptime.strptime s "%Y-%m-%d" = Some d ->
  Strptime.strptime s "%Y-%m-%dT%H:%M" = Some d' -> False.
Proof.
  eapply (formats_exclusive s _ _ d d' _ _ "T");
    [reflexivity|reflexivity| |exact date_tokens_accept_no_T].
  simpl. tauto.
Qed.

Lemma date_excludes_seconds (s : string) (d d' : datetime) :
  Strptime.strptime s "%Y-%m-%d" = Some d ->
  Strptime.strptime s "%Y-%m-%dT%H:%M:%SZ" = Some d' -> False.
Proof.
  eapply (formats_exclusive s _ _ d d' _ _ "T");
    [reflexivity|reflexivity| |exact date_tokens_accept_no_T].
  simpl. tauto.
Qed.

Lemma minutes_excludes_seconds (s : string) (d d' : datetime) :
  Strptime.strptime s "%Y-%m-%dT%H:%M" = Some d ->
  Strptime.strptime s "%Y-%m-%dT%H:%M:%SZ" = Some d' -> False.
Proof.
  eapply (formats_exclusive s _ _ d d' _ _ "Z");
    [reflexivity|reflexivity| |exact minutes_tokens_accept_no_Z].
  simpl. tauto.
Qed.

(** What [parse_with] returns over patterns that never accept the same
    text with different results. *)
Lemma parse_with_Some strptime (s : string) (d : datetime) (l : list string) :
  (forall p q dp dq, In p l -> In q l ->
                     strptime s p = Some dp -> strptime s q = Some dq -> dp = dq) ->
  parse_with strptime l s = Some d <-> exists p, In p l /\ strptime s p = Some d.
Proof.
  induction l as [|p l IH]; intros Hcons; simpl.
  - split; [discriminate|]. intros (p & [] & _).
  - destruct (strptime s p) as [dp|] eqn:Ep.
    + split.
      * intros [= <-]. exists p. auto.
      * intros (q & Hq & Hd). f_equal.
        eapply (Hcons p q); simpl; eauto.
    + rewrite IH.
      * split.
        -- intros (q & Hq & Hd). exists q. auto.
        -- intros (q & [Hq|Hq] & Hd); [subst q; congruence|]. exists q. auto.
      * intros p' q' dp dq Hp' Hq'. apply Hcons; simpl; auto.
Qed.

Lemma patterns_consistent (s p q : string) (dp dq : datetime) :
  In p DATETIME_PATTERNS -> In q DATETIME_PATTERNS ->
  Strptime.strptime s p = Some dp -> Strptime.strptime s q = Some dq ->
  p = q.
Proof.
  unfold DATETIME_PATTERNS. simpl.
  intros [<-|[<-|[<-|[]]]] [<-|[<-|[<-|[]]]] Hp Hq; try reflexivity; exfalso.
  - exact (minutes_excludes_seconds s _ _ Hq Hp).
  - exact (date_excludes_seconds s _ _ Hq Hp).
  - exact (minutes_excludes_seconds s _ _ Hp Hq).
  - exact (date_excludes_minutes s _ _ Hq Hp).
  - exact (date_excludes_seconds s _ _ Hp Hq).
  - exact (date_excludes_minutes s _ _ Hp Hq).
Qed.

(** X6: under CPython's [strptime] a text is accepted by at most one of the
    three patterns, so the order in which [parse_expiry] tries them never
    decides a result: over any reordering of [DATETIME_PATTERNS] the loop
    returns the same timestamp or fails alike. *)
Theorem X6_patterns_never_overlap :
  forall (s : string) (l : list string),
    Permutation l DATETIME_PATTERNS ->
    (length (accepting_patterns s) <= 1)%nat
    /\ parse_with Strptime.strptime l s
       = parse_with Strptime.strptime DATETIME_PATTERNS s.
Proof.
  intros s l Hperm. split.
  - unfold accepting_patterns, DATETIME_PATTERNS.
    destruct (Strptime.strptime s "%Y-%m-%dT%H:%M:%SZ") as [d1|] eqn:E1;
      destruct (Strptime.strptime s "%Y-%m-%dT%H:%M") as [d2|] eqn:E2;
      destruct (Strptime.strptime s "%Y-%m-%d") as [d3|] eqn:E3;
      try (exfalso; exact (minutes_excludes_seconds s _ _ E2 E1));
      try (exfalso; exact (date_excludes_seconds s _ _ E3 E1));
      try (exfalso; exact (date_excludes_minutes s _ _ E3 E2));
      rewrite !filter_cons, filter_nil, E1, E2, E3;
      repeat (destruct (decide _) as [Hs|Hs];
              [try (destruct Hs as [? Hs]; discriminate Hs)
              |try (exfalso; apply Hs; eexists; reflexivity)]);
      simpl; lia.
  - assert (Hc : forall l', (forall p, In p l' -> In p DATETIME_PATTERNS) ->
                 forall p q dp dq, In p l' -> In q l' ->
                   Strptime.strptime s p = Some dp -> Strptime.strptime s q = Some dq ->
                   dp = dq).
    { intros l' Hsub p q dp dq Hp Hq Hsp Hsq.
      assert (p = q) by (eapply patterns_consistent; eauto). subst q. congruence. }
    assert (Hin : forall p, In p l <-> In p DATETIME_PATTERNS).
    { intros p. split; intros H.
      - eapply Permutation_in; eauto.
      - eapply Permutation_in; [symmetry; exact Hperm|exact H]. }
    destruct (parse_with Strptime.strptime DATETIME_PATTERNS s) as [d|] eqn:E.
    + apply parse_with_Some in E as (p & Hp & Hd); [|apply Hc; auto].
      apply parse_with_Some; [apply Hc; intros; now apply Hin|].
      exists p. split; [now apply Hin|exact Hd].
    + destruct (parse_with Strptime.strptime l s) as [d|] eqn:E'; [|reflexivity].
      apply parse_with_Some in E' as (p & Hp & Hd); [|apply Hc; intros; now apply Hin].
      assert (parse_with Strptime.strptime DATETIME_PATTERNS s = Some d) as E''.
      { apply parse_with_Some; [apply Hc; auto|]. exists p. split; [now apply Hin|exact Hd]. }
      congruence.
Qed.

Lemma X6_witness_reversed_patterns :
  parse_with Strptime.strptime ["%Y-%m-%d"; "%Y-%m-%dT%H:%M"; "%Y-%m-%dT%H:%M:%SZ"]
    "2022-01-01T13:23"
  = parse_with Strptime.strptime DATETIME_PATTERNS "2022-01-01T13:23".
Proof.
  apply (X6_patterns_never_overlap "2022-01-01T13:23"
           ["%Y-%m-%d"; "%Y-%m-%dT%H:%M"; "%Y-%m-%dT%H:%M:%SZ"]).
  unfold DATETIME_PATTERNS.
  eapply perm_trans; [apply perm_swap|].
  eapply perm_trans; [apply perm_skip, perm_swap|].
  apply perm_swap.
Defined.

(** On the day of a midnight [ts], a reading of the clock is after [ts]
    exactly when its time of day is not midnight. *)
Lemma dt_gtb_midnight (y mo d h mi se us : Z) :
  0 <= h -> 0 <= mi -> 0 <= se -> 0 <= us ->
  dt_gtb (mk_datetime y mo d h mi se us) (mk_datetime y mo d 0 0 0 0)
  = after_midnight (mk_datetime y mo d h mi se us).
Proof.
  intros Hh Hmi Hse Hus.
  unfold dt_gtb, dt_cmp, dt_fields, after_midnight.
  cbn [year month day hour minute second microsecond lex_compare].
  rewrite !Z.compare_refl.
  destruct (Z.compare_spec h 0) as [->|?|?]; [|lia|];
    [|rewrite (proj2 (Z.eqb_neq h 0)) by lia; reflexivity].
  destruct (Z.compare_spec mi 0) as [->|?|?]; [|lia|];
    [|rewrite (proj2 (Z.eqb_neq mi 0)) by lia; reflexivity].
  destruct (Z.compare_spec se 0) as [->|?|?]; [|lia|];
    [|rewrite (proj2 (Z.eqb_neq se 0)) by lia; reflexivity].
  destruct (Z.compare_spec us 0) as [->|?|?]; [reflexivity|lia|].
  rewrite (proj2 (Z.eqb_neq us 0)) by lia. reflexivity.
Qed.

(** X7: an expiry given as a date only is parsed by [parse_expiry] to the
    midnight that begins that day: hour, minute, second and microsecond are
    zero.  On that day a reading of the clock is after the expiry exactly
    when its time of day is not midnight, so a portal with that expiry is
    Pending at midnight and Expired from the first microsecond after it,
    not at the end of the day. *)
Theorem X7_date_only_is_midnight :
  forall (s : string) (ts : datetime),
    Strptime.strptime s "%Y-%m-%d" = Some ts ->
    parse_expiry Strptime.strptime s = inr ts
    /\ ts = mk_datetime (year ts) (month ts) (day ts) 0 0 0 0
    /\ (forall now,
          year now = year ts -> month now = month ts -> day now = day ts ->
          0 <= hour now -> 0 <= minute now -> 0 <= second now ->
          0 <= microsecond now ->
          dt_gtb now ts = after_midnight now)
    /\ (forall tp now,
          expiry_of tp = inr (Some s) ->
          year now = year ts -> month now = month ts -> day now = day ts ->
          0 <= hour now -> 0 <= minute now -> 0 <= second now ->
          0 <= microsecond now ->
          evaluate Strptime.strptime tp now
          = inr (if after_midnight now then Expired ts else Pending ts)).
Proof.
  intros s ts H.
  assert (Hmid : ts = mk_datetime (year ts) (month ts) (day ts) 0 0 0 0).
  { pose proof H as H'.
    apply strptime_inv in H' as (tks & fs & Htk & Hm & Hb).
    vm_compute in Htk. injection Htk as <-.
    apply match_tokens_inv in Hm as (txt & _ & _ & Hfs & _).
    cbn [directives flat_map app] in Hfs.
    destruct fs as [|[d1 t1] [|[d2 t2] [|[d3 t3] [|? ?]]]]; try discriminate Hfs.
    cbn [map fst] in Hfs. injection Hfs as -> -> ->.
    unfold Strptime.build in Hb.
    destruct (Strptime.valid_datetime _); [|discriminate].
    injection Hb as <-. reflexivity. }
  assert (Hparse : parse_expiry Strptime.strptime s = inr ts).
  { unfold parse_expiry, DATETIME_PATTERNS. cbn [parse_with].
    destruct (Strptime.strptime s "%Y-%m-%dT%H:%M:%SZ") as [d1|] eqn:E1;
      [exfalso; exact (date_excludes_seconds s _ _ H E1)|].
    destruct (Strptime.strptime s "%Y-%m-%dT%H:%M") as [d2|] eqn:E2;
      [exfalso; exact (date_excludes_minutes s _ _ H E2)|].
    rewrite H. reflexivity. }
  assert (Hday : forall now,
             year now = year ts -> month now = month ts -> day now = day ts ->
             0 <= hour now -> 0 <= minute now -> 0 <= second now ->
             0 <= microsecond now ->
             dt_gtb now ts = after_midnight now).
  { intros [y mo d h mi se us].
    cbn [year month day hour minute second microsecond].
    intros -> -> -> Hh Hmi Hse Hus.
    transitivity
      (dt_gtb (mk_datetime (year ts) (month ts) (day ts) h mi se us)
              (mk_datetime (year ts) (month ts) (day ts) 0 0 0 0));
      [now rewrite <- Hmid|now apply dt_gtb_midnight]. }
  split; [exact Hparse|]. split; [exact Hmid|]. split; [exact Hday|].
  intros tp now Hv Hy Hmo Hd Hh Hmi Hse Hus.
  rewrite (evaluate_annotated Strptime.strptime tp now s Hv
             (parsed_is_truthy s ts Hparse)), Hparse.
  now rewrite (Hday now Hy Hmo Hd Hh Hmi Hse Hus).
Qed.

(** The first day of 2022: Pending at midnight, Expired one microsecond
    later. *)
Lemma X7_witness_new_year :
  Strptime.strptime "2022-01-01" "%Y-%m-%d" = Some (mk_datetime 2022 1 1 0 0 0 0)
  /\ parse_expiry Strptime.strptime "2022-01-01" = inr (mk_datetime 2022 1 1 0 0 0 0)
  /\ evaluate Strptime.strptime Demo.due_portal (mk_datetime 2022 1 1 0 0 0 0)
     = inr (Pending (mk_datetime 2022 1 1 0 0 0 0))
  /\ evaluate Strptime.strptime Demo.due_portal (mk_datetime 2022 1 1 0 0 0 1)
     = inr (Expired (mk_datetime 2022 1 1 0 0 0 0)).
Proof.
  assert (H : Strptime.strptime "2022-01-01" "%Y-%m-%d"
              = Some (mk_datetime 2022 1 1 0 0 0 0)) by (vm_compute; reflexivity).
  pose proof (X7_date_only_is_midnight "2022-01-01" (mk_datetime 2022 1 1 0 0 0 0) H)
    as (Hp & _ & _ & He).
  split; [exact H|]. split; [exact Hp|]. split.
  - apply (He Demo.due_portal (mk_datetime 2022 1 1 0 0 0 0));
      try reflexivity; cbn; lia.
  - apply (He Demo.due_portal (mk_datetime 2022 1 1 0 0 0 1));
      try reflexivity; cbn; lia.
Defined.

(* ===================================================================== *)
(** ** Sweeps under a clock that stands still *)
(* ===================================================================== *)

(** The decision for [tp] at the reading [now], when reading its
    annotation does not raise. *)
Lemma sweep_decisions_frozen strptime (P : Platform) (items : list Resource) :
  frozen_clock P ->
  sweep_failure items = None ->
  forall k,
    sweep_decisions strptime P items k
    = map (fun tp => (tp, match evaluate strptime tp (utcnow_at P 0) with
                          | inr d => d
                          | inl _ => NoExpiry
                          end)) items.
Proof.
  intros Hfrozen. induction items as [|tp rest IH]; intros Hok k; [reflexivity|].
  simpl in Hok |- *. rewrite (Hfrozen k 0%nat).
  destruct (expiry_of tp) as [e|x] eqn:Ex; [discriminate|].
  destruct (evaluate strptime tp (utcnow_at P 0)) as [e|d] eqn:Ev.
  - apply evaluate_raises in Ev. congruence.
  - now rewrite IH.
Qed.

Lemma sweep_failure_none (items : list Resource) :
  sweep_failure items = None
  <-> Forall (fun tp => exists x, expiry_of tp = inr x) items.
Proof.
  induction items as [|tp rest IH]; simpl.
  - split; [constructor|reflexivity].
  - destruct (expiry_of tp) as [e|x] eqn:E; split.
    + discriminate.
    + intros H. apply Forall_cons in H as [[y Hy] _]. congruence.
    + intros H. constructor; [eauto|now apply IH].
    + intros H. apply Forall_cons in H as [_ H]. now apply IH.
Qed.

Lemma sweep_failure_permutation (items items' : list Resource) :
  Permutation items items' ->
  sweep_failure items = None -> sweep_failure items' = None.
Proof.
  intros Hperm H. apply sweep_failure_none. apply sweep_failure_none in H.
  now rewrite <- Hperm.
Qed.

Lemma total_permutation (key : string) (f : Resource -> ExpiryDecision)
    (items items' : list Resource) :
  Permutation items items' ->
  total key (map (fun tp => (tp, f tp)) items)
  = total key (map (fun tp => (tp, f tp)) items').
Proof.
  induction 1 as [|x l l' _ IH|x y l|l l' l'' _ IH1 _ IH2]; simpl.
  - reflexivity.
  - now rewrite IH.
  - lia.
  - congruence.
Qed.

(** X8: while the clock gives the same reading and no handling raises,
    what a sweep adds to the counter depends on the listed portals only,
    not on their order, on the starting world, on the client or on the
    dry-run flag: two sweeps whose listings are permutations of each other
    both return, and add the same amount under every key. *)
Theorem X8_counts_independent_of_order :
  forall (strptime : string -> string -> option datetime) (P : Platform)
         (client client' : Client P) (api api' : Api P) (dry dry' : bool)
         (v v' : string) (items items' : list Resource)
         (c c' : dict) (w w' : World P) (c1 c2 c1' c2' : Cluster P),
    frozen_clock P ->
    Permutation items items' ->
    sweep_failure items = None ->
    resources_get P client v "TrainingPortal" (cluster w) = (inr api, c1) ->
    api_get P api c1 = (inr items, c2) ->
    resources_get P client' v' "TrainingPortal" (cluster w') = (inr api', c1') ->
    api_get P api' c1' = (inr items', c2') ->
    exists r r',
      fst (sweep_objects strptime P client v c dry w) = inr r
      /\ fst (sweep_objects strptime P client' v' c' dry' w') = inr r'
      /\ forall key, count key r - count key c = count key r' - count key c'.
Proof.
  intros strptime P client client' api api' dry dry' v v' items items' c c' w w'
    c1 c2 c1' c2' Hfrozen Hperm Hok H1 H2 H1' H2'.
  pose proof (sweep_failure_permutation items items' Hperm Hok) as Hok'.
  destruct (sweep_objects_spec strptime P client v c dry w api c1 items c2 H1 H2)
    as (w1 & new & Hrun & _).
  destruct (sweep_objects_spec strptime P client' v' c' dry' w' api' c1' items' c2'
              H1' H2')
    as (w1' & new' & Hrun' & _).
  rewrite Hok in Hrun. rewrite Hok' in Hrun'.
  eexists. eexists. rewrite Hrun, Hrun'.
  split; [reflexivity|]. split; [reflexivity|].
  intros key. rewrite !count_fold_summaries.
  rewrite (sweep_decisions_frozen strptime P items Hfrozen Hok).
  rewrite (sweep_decisions_frozen strptime P items' Hfrozen Hok').
  rewrite (total_permutation key _ items items' Hperm). lia.
Qed.

Lemma X8_witness_reordered_listing :
  exists r r',
    fst (sweep_objects Strptime.strptime
           (Demo.platform (Demo.healthy Demo.new_year_2023)) tt
           "training.educates.dev/v1beta1" [] false
           (Demo.world (Demo.healthy Demo.new_year_2023)
              [Demo.old_portal; Demo.late_portal])) = inr r
    /\ fst (sweep_objects Strptime.strptime
              (Demo.platform (Demo.healthy Demo.new_year_2023)) tt
              "training.educates.dev/v1beta1" [] true
              (Demo.world (Demo.healthy Demo.new_year_2023)
                 [Demo.late_portal; Demo.old_portal])) = inr r'
    /\ forall key, count key r - count key [] = count key r' - count key [].
Proof.
  apply (X8_counts_independent_of_order Strptime.strptime
           (Demo.platform (Demo.healthy Demo.new_year_2023)) tt tt tt tt false true
           "training.educates.dev/v1beta1" "training.educates.dev/v1beta1"
           [Demo.old_portal; Demo.late_portal] [Demo.late_portal; Demo.old_portal]
           [] []
           (Demo.world (Demo.healthy Demo.new_year_2023)
              [Demo.old_portal; Demo.late_portal])
           (Demo.world (Demo.healthy Demo.new_year_2023)
              [Demo.late_portal; Demo.old_portal])
           [Demo.old_portal; Demo.late_portal] [Demo.old_portal; Demo.late_portal]
           [Demo.late_portal; Demo.old_portal] [Demo.late_portal; Demo.old_portal]).
  - intros k k'. reflexivity.
  - apply perm_swap.
  - reflexivity.
  - reflexivity.
  - reflexivity.
  - reflexivity.
  - reflexivity.
Defined.

(* ===================================================================== *)
(** ** Expired stays expired *)
(* ===================================================================== *)





(* ===================================================================== *)
(** ** What a sweep does to the cluster *)
(* ===================================================================== *)

(** X10: once the lookup and the listing returned, a sweep touches the
    cluster through the deletion calls only: the cluster it leaves is the
    one the listing left after the client's delete was applied for each
    expired portal that the loop reached, in listing order, and nothing
    else; under dry run it is the cluster the listing left.  This holds
    also when the handling of a portal raises: the deletions made before
    that are not undone, and none is made after. *)
Theorem X10_cluster_changed_by_deletions_only :
  forall (strptime : string -> string -> option datetime) (P : Platform)
         (client : Client P) (api : Api P) (dry : bool) (v : string) (c : dict)
         (w : World P) (c1 c2 : Cluster P) (items : list Resource),
    resources_get P client v "TrainingPortal" (cluster w) = (inr api, c1) ->
    api_get P api c1 = (inr items, c2) ->
    let ds := sweep_decisions strptime P items (ticks w) in
    cluster (snd (sweep_objects strptime P client v c dry w))
    = (if dry then c2
       else fold_left
              (fun cl tp => snd (api_delete P api (metadata_name (metadata tp)) cl))
              (expired_items ds) c2)
    /\ map fst ds = reached items.
Proof.
  intros strptime P client api dry v c w c1 c2 items H1 H2 ds.
  destruct (sweep_objects_spec strptime P client v c dry w api c1 items c2 H1 H2)
    as (w' & new & Hrun & _ & _ & _ & _ & Hcl).
  rewrite Hrun. cbn [snd]. split; [exact Hcl|apply sweep_decisions_reached].
Qed.

(** The expired portal listed first is removed; the one listed behind the
    portal whose handling raises is not. *)
Lemma X10_witness_deleted_before_the_raise :
  cluster (snd (sweep_objects Strptime.strptime
                  (Demo.platform (Demo.healthy Demo.new_year_2023)) tt
                  "training.educates.dev/v1beta1" [] false
                  (Demo.world (Demo.healthy Demo.new_year_2023)
                     [Demo.old_portal; Demo.shadowing_portal; Demo.due_portal])))
  = [Demo.shadowing_portal; Demo.due_portal].
Proof.
  refine (eq_trans
            (proj1 (X10_cluster_changed_by_deletions_only Strptime.strptime
                      (Demo.platform (Demo.healthy Demo.new_year_2023)) tt tt false
                      "training.educates.dev/v1beta1" []
                      (Demo.world (Demo.healthy Demo.new_year_2023)
                         [Demo.old_portal; Demo.shadowing_portal; Demo.due_portal])
                      [Demo.old_portal; Demo.shadowing_portal; Demo.due_portal]
                      [Demo.old_portal; Demo.shadowing_portal; Demo.due_portal]
                      [Demo.old_portal; Demo.shadowing_portal; Demo.due_portal]
                      eq_refl eq_refl)) _).
  vm_compute. reflexivity.
Defined.

Example deletion_removes_the_expired_portal_only :
  cluster (snd (sweep_items Strptime.strptime
                  (Demo.platform (Demo.healthy Demo.new_year_2023)) tt
                  [Demo.old_portal; Demo.bad_portal; Demo.late_portal] [] false
                  (Demo.world (Demo.healthy Demo.new_year_2023)
                     [Demo.old_portal; Demo.bad_portal; Demo.late_portal])))
  = [Demo.bad_portal; Demo.late_portal].
Proof. vm_compute. reflexivity. Qed.

(* ===================================================================== *)
(** ** Portals without an expiry, when reading the annotation returns *)
(* ===================================================================== *)

(** X11: for a portal without annotations, or whose annotations hold
    neither the expiry key nor a key [get], the decision is NoExpiry
    whatever the parser is: the handler returns the empty dictionary and
    leaves the world (trace, cluster, clock) exactly as it found it, so
    nothing is parsed, logged or deleted, and the loop goes on with the
    counter unchanged. *)
Theorem X11_no_annotation_no_expiry :
  forall (strptime : string -> string -> option datetime) (P : Platform)
         (api : Api P) (tp : Resource) (rest : list Resource) (dry : bool)
         (w : World P) (c : dict),
    metadata_annotations (metadata tp) = None
    \/ (exists m, metadata_annotations (metadata tp) = Some m
                  /\ m !! "get" = None
                  /\ m !! EXPIRY_ANNOTATION = None) ->
    evaluate strptime tp (utcnow_at P (ticks w)) = inr NoExpiry
    /\ handle_trainingportal_expiry strptime P api tp dry w = (inr [], w)
    /\ sweep_items strptime P api (tp :: rest) c dry w
       = sweep_items strptime P api rest c dry w.
Proof.
  intros strptime P api tp rest dry w c H.
  apply expiry_of_absent in H.
  destruct (handle_falsy strptime P api tp dry w None H eq_refl) as [He Hh].
  split; [exact He|]. split; [exact Hh|].
  rewrite (sweep_items_step strptime P api tp rest c dry w NoExpiry He), Hh.
  reflexivity.
Qed.

Lemma X11_witness_bare_portal :
  handle_trainingportal_expiry Strptime.strptime
    (Demo.platform (Demo.healthy Demo.new_year_2023)) tt Demo.bare_portal false
    (Demo.world (Demo.healthy Demo.new_year_2023) [Demo.bare_portal])
  = (inr [], Demo.world (Demo.healthy Demo.new_year_2023) [Demo.bare_portal]).
Proof.
  apply (X11_no_annotation_no_expiry Strptime.strptime
           (Demo.platform (Demo.healthy Demo.new_year_2023)) tt Demo.bare_portal []
           false (Demo.world (Demo.healthy Demo.new_year_2023) [Demo.bare_portal]) []).
  left. reflexivity.
Defined.
